(** * Region sampling for tracker training (data.py)

    A shallow embedding of [Folder], [RegionDataset] and [SimpleSampler]
    from data.py, and the properties of the sampling pipeline.

    Numbers.  Coordinates, sizes, areas and thresholds are Python/numpy
    floats; in the sampler they are modelled by exact rationals [Q], without
    rounding, so what is proved of them is which values are compared and
    stored and which branch a comparison takes.  The one operation of
    the sampler that is not total on numbers, the division that yields the
    IoU, is modelled with the values numpy float division produces for a
    zero divisor (a signed infinity or nan, no exception).  The values read
    from a ground-truth file are numbers, infinities or nan.  The quota
    counters [remain] are a numpy integer array: [Z] with 64-bit
    wrap-around on the decrement.

    Randomness.  [numpy.random.normal] is an oracle: the sampling loop is run
    against a finite prefix of the stream of its results, and answers [None]
    when the prefix is used up before the loop breaks.  The oracle has
    results to give only for scale arguments that are not negative
    ([scales_accepted]); for a negative scale numpy.random.normal raises
    ValueError. *)

From Stdlib Require Import QArith Qminmax ZArith List Bool Lia Lqa.
From stdpp Require Import gmap strings sorting.

Local Open Scope Q_scope.

(** ** Two-element numpy arrays *)

Record vec := mkvec { vx : Q; vy : Q }.

Definition vadd (a b : vec) : vec := mkvec (vx a + vx b) (vy a + vy b).
Definition vsub (a b : vec) : vec := mkvec (vx a - vx b) (vy a - vy b).
(** array * scalar and array / scalar *)
Definition vscale (a : vec) (k : Q) : vec := mkvec (vx a * k) (vy a * k).
Definition vdivs (a : vec) (k : Q) : vec := mkvec (vx a / k) (vy a / k).
Definition maximum (a b : vec) : vec := mkvec (Qmax (vx a) (vx b)) (Qmax (vy a) (vy b)).
Definition minimum (a b : vec) : vec := mkvec (Qmin (vx a) (vx b)) (Qmin (vy a) (vy b)).
(** numpy.prod and numpy.mean of a two-element array *)
Definition prod (a : vec) : Q := vx a * vy a.
Definition mean (a : vec) : Q := (vx a + vy a) / 2.
(** numpy.prod of a scalar: the scalar *)
Definition prod0 (x : Q) : Q := x.

Definition Qltb (a b : Q) : bool := negb (Qle_bool b a).

(** [(a < b).any()] and [(a > b).any()] *)
Definition any_lt (a b : vec) : bool := Qltb (vx a) (vx b) || Qltb (vy a) (vy b).
Definition any_gt (a b : vec) : bool := Qltb (vx b) (vx a) || Qltb (vy b) (vy a).

(** ** Bounding boxes: four-element arrays (min_x, min_y, max_x, max_y) *)

Record bbox := mkbbox { min_x : Q; min_y : Q; max_x : Q; max_y : Q }.

(** [lt, br = bbox.reshape([2, 2])] *)
Definition reshape22 (b : bbox) : vec * vec :=
  (mkvec (min_x b) (min_y b), mkvec (max_x b) (max_y b)).

(** [numpy.concatenate([nlt, nbr])] *)
Definition concatenate (nlt nbr : vec) : bbox :=
  mkbbox (vx nlt) (vy nlt) (vx nbr) (vy nbr).

(** ** Float division and comparison

    [a / b] on numpy float64 scalars: a zero divisor gives nan for 0/0 and
    an infinity with the sign of the dividend otherwise; no exception is
    raised.  Comparisons with nan are false. *)

Inductive fval :=
| Finite (q : Q)
| Inf (negative : bool)
| NaN.

Definition fdiv (a b : Q) : fval :=
  if Qeq_bool b 0 then
    if Qeq_bool a 0 then NaN else Inf (Qltb a 0)
  else Finite (a / b).

(** [v >= t] and [v < t] for a finite threshold [t] *)
Definition fge (v : fval) (t : Q) : bool :=
  match v with
  | Finite q => Qle_bool t q
  | Inf negative => negb negative
  | NaN => false
  end.

Definition flt (v : fval) (t : Q) : bool :=
  match v with
  | Finite q => Qltb q t
  | Inf negative => negative
  | NaN => false
  end.

(** ** Candidates and the quota counters *)

(** An element of [data]: [(is_pos, numpy.concatenate([nlt, nbr]))]. *)
Definition candidate : Type := bool * bbox.

Definition COEF_SCALE : Q := 1.05.

(** The results of the two calls to [numpy.random.normal] in one iteration:
    [nctr_draw] is the value of [numpy.random.normal(ctr, sigma)], and
    [pow_draw] is the value of
    [COEF_SCALE ** numpy.random.normal(scale=self.sigma_s)]. *)
Record draw := mkdraw { nctr_draw : vec; pow_draw : Q }.

(** [remain[idx] -= 1] on an int64 array *)
Definition wrap64 (z : Z) : Z := ((z + 2 ^ 63) mod 2 ^ 64 - 2 ^ 63)%Z.

(** The variables the closure [add_data] captures and mutates. *)
Record loop_state := mkstate { data : list candidate; remain : Z * Z }.

Definition add_data (is_pos : bool) (nlt nbr : vec) (st : loop_state) : loop_state :=
  let idx := negb is_pos in
  let r := if idx then snd (remain st) else fst (remain st) in
  if (r =? 0)%Z then st
  else
    {| data := data st ++ [(is_pos, concatenate nlt nbr)];
       remain := if idx then (fst (remain st), wrap64 (r - 1))
                 else (wrap64 (r - 1), snd (remain st)) |}.

(** [all(remain == 0)] *)
Definition all_zero (r : Z * Z) : bool := (fst r =? 0)%Z && (snd r =? 0)%Z.

(** What one iteration did with its candidate: took the [continue] of the
    overlap test, or evaluated the IoU expression to [v]. *)
Inductive event :=
| Disjoint
| IoU (v : fval).

Definition count_pos (l : list candidate) : nat := length (List.filter (fun c : candidate => fst c) l).
Definition count_neg (l : list candidate) : nat := length (List.filter (fun c : candidate => negb (fst c)) l).

(** ** Exceptions and object state

    A method runs against the state of the object (or of the file system) it
    works on, and either returns a value or raises. *)

Inductive error :=
| ValueError (msg : string)
| IndexError
| TypeError
| OSError.

Definition Py (S A : Type) : Type := S -> (error + A) * S.

#[local] Instance Py_ret {S} : MRet (Py S) := fun A (a : A) s => (inr a, s).

#[local] Instance Py_bind {S} : MBind (Py S) := fun A B (k : A -> Py S B) (m : Py S A) s =>
  match m s with
  | (inl e, s') => (inl e, s')
  | (inr a, s') => k a s'
  end.

Definition raise {S A} (e : error) : Py S A := fun s => (inl e, s).

(** Reading an attribute of the state. *)
Definition reads {S A} (f : S -> A) : Py S A := fun s => (inr (f s), s).

(** [l[index]] on a Python list: a negative index counts from the end, an
    index out of range raises IndexError. *)
Definition list_getitem {S A} (l : list A) (index : Z) : Py S A :=
  let n := Z.of_nat (length l) in
  let i := if (index <? 0)%Z then (n + index)%Z else index in
  if ((0 <=? i) && (i <? n))%Z then
    match nth_error l (Z.to_nat i) with
    | Some a => mret a
    | None => raise IndexError
    end
  else raise IndexError.

(** ** RegionDataset *)

Section Regions.

Variable image : Type.
(** What a label transform returns. *)
Variable label : Type.
(** [img.crop(tuple(bbox))] of the image library. *)
Variable crop : image -> bbox -> image.

(** [target] is the raw box until a label transform replaces it. *)
Inductive target :=
| Raw (b : bbox)
| Transformed (l : label).

Record RegionDataset := mkRegionDataset {
  img : image;
  crops : list candidate;
  transforms : option (image -> image);
  target_transforms_pos : option (bbox -> label);
  target_transforms_neg : option (bbox -> label)
}.

Definition RegionDataset_len (self : RegionDataset) : nat := length (crops self).

Definition RegionDataset_getitem (index : Z) : Py RegionDataset (image * target) :=
  crops_ ← reads crops;
  '(is_pos, bbox) ← list_getitem crops_ index;
  img_ ← reads img;
  let img1 := crop img_ bbox in
  let target0 := Raw bbox in
  transforms_ ← reads transforms;
  let img2 := match transforms_ with Some f => f img1 | None => img1 end in
  pos_ ← reads target_transforms_pos;
  neg_ ← reads target_transforms_neg;
  let target1 :=
    match is_pos, pos_, neg_ with
    | true, Some f, _ => Transformed (f bbox)
    | false, _, Some g => Transformed (g bbox)
    | _, _, _ => target0
    end in
  mret (img2, target1).

(** ** SimpleSampler *)

Record SimpleSampler := mkSimpleSampler {
  isize : vec;
  s_transforms : option (image -> image);
  s_target_transforms_pos : option (bbox -> label);
  s_target_transforms_neg : option (bbox -> label);
  num : Z * Z;
  num_total : Z;
  thres_pos : Q;
  thres_neg : Q;
  sigma_t : vec;
  sigma_s : Q
}.

Definition SimpleSampler_init (init_bbox : bbox)
    (transforms : option (image -> image))
    (target_transforms_pos target_transforms_neg : option (bbox -> label))
    (num : Z * Z) (threshold : Q * Q) (sigma_xy : vec) (sigma_s : Q) : SimpleSampler :=
  let '(lt, br) := reshape22 init_bbox in
  {| isize := vsub br lt;
     s_transforms := transforms;
     s_target_transforms_pos := target_transforms_pos;
     s_target_transforms_neg := target_transforms_neg;
     num := num;
     num_total := (fst num + snd num)%Z;
     thres_pos := fst threshold;
     thres_neg := snd threshold;
     sigma_t := sigma_xy;
     sigma_s := sigma_s |}.

(** [nsize_2], the half-size of the candidate of draw [d]. *)
Definition nsize_2 (self : SimpleSampler) (d : draw) : vec :=
  vdivs (vscale (isize self) (pow_draw d)) 2.

(** The overlap test [(br < nlt).any() or (lt > nbr).any()]. *)
Definition overlap_test (lt br nlt nbr : vec) : bool :=
  any_lt br nlt || any_gt lt nbr.

(** The candidate of draw [d]: [(nlt, nbr)]. *)
Definition candidate_of (self : SimpleSampler) (d : draw) : vec * vec :=
  let nctr := nctr_draw d in
  let nsize_2 := nsize_2 self d in
  (vsub nctr nsize_2, vadd nctr nsize_2).

(** The IoU expression of the loop body and its two areas. *)
Definition area_over_of (lt br nlt nbr : vec) : Q :=
  let olt := maximum lt nlt in
  let obr := minimum br nbr in
  prod (vsub obr olt).

Definition area_union_of (area : Q) (nsize_2 : vec) (area_over : Q) : Q :=
  let area_add := prod nsize_2 * 4 in
  area + area_add - area_over.

Definition iou_of (area : Q) (lt br nlt nbr nsize_2 : vec) : fval :=
  let area_over := area_over_of lt br nlt nbr in
  let area_union := area_union_of area nsize_2 area_over in
  fdiv area_over area_union.

(** One pass through the body of [while True]: the state after it, what it
    did, and whether it left the loop through [break]. *)
Definition iteration (self : SimpleSampler) (lt br : vec) (area : Q)
    (d : draw) (st : loop_state) : loop_state * event * bool :=
  let nsize_2 := nsize_2 self d in
  let '(nlt, nbr) := candidate_of self d in
  if overlap_test lt br nlt nbr then
    (add_data false nlt nbr st, Disjoint, false)
  else
    let iou := iou_of area lt br nlt nbr nsize_2 in
    let st' :=
      if fge iou (thres_pos self) then add_data true nlt nbr st
      else if flt iou (thres_neg self) then add_data false nlt nbr st
      else st in
    (st', IoU iou, all_zero (remain st')).

(** The loop, run on the draws it is given.  [None]: the draws are used up
    and the loop has not reached [break]. *)
Fixpoint sampling_loop (self : SimpleSampler) (lt br : vec) (area : Q)
    (draws : list draw) (st : loop_state) : option (loop_state * list event) :=
  match draws with
  | [] => None
  | d :: ds =>
      let '(st', ev, exit) := iteration self lt br area d st in
      if exit then Some (st', [ev])
      else
        match sampling_loop self lt br area ds st' with
        | Some (st'', evs) => Some (st'', ev :: evs)
        | None => None
        end
  end.

(** [SimpleSampler.__call__], with the trace of its iterations.  [ctr] and
    [sigma] only parameterise the random source, whose results are
    [draws]. *)
Definition call_trace (self : SimpleSampler) (img : image) (bbox : bbox)
    (draws : list draw) : option (RegionDataset * list event) :=
  let '(lt, br) := reshape22 bbox in
  let ctr := vdivs (vadd lt br) 2 in
  let sz := mean (vsub br lt) in
  let area := prod0 sz in
  let sigma := vscale (sigma_t self) sz in
  match sampling_loop self lt br area draws (mkstate [] (num self)) with
  | Some (st, evs) =>
      Some (mkRegionDataset img (data st) (s_transforms self)
              (s_target_transforms_pos self) (s_target_transforms_neg self), evs)
  | None => None
  end.

Definition SimpleSampler_call (self : SimpleSampler) (img : image) (bbox : bbox)
    (draws : list draw) : option RegionDataset :=
  option_map fst (call_trace self img bbox draws).

End Regions.

Arguments Raw {label} b.
Arguments Transformed {label} l.
Arguments mkRegionDataset {image label}.
Arguments img {image label}.
Arguments crops {image label}.
Arguments transforms {image label}.
Arguments target_transforms_pos {image label}.
Arguments target_transforms_neg {image label}.
Arguments RegionDataset_len {image label}.
Arguments RegionDataset_getitem {image label}.
Arguments isize {image label}.
Arguments num {image label}.
Arguments thres_pos {image label}.
Arguments thres_neg {image label}.
Arguments nsize_2 {image label}.
Arguments candidate_of {image label}.
Arguments iteration {image label}.
Arguments sampling_loop {image label}.
Arguments call_trace {image label}.
Arguments SimpleSampler_call {image label}.

(** ** Folder *)

(** [a < b] on floats, as the builtins [min] and [max] ask it: false when
    either side is nan. *)
Definition fval_ltb (a b : fval) : bool :=
  match a, b with
  | NaN, _ => false
  | _, NaN => false
  | Finite x, Finite y => Qltb x y
  | Finite _, Inf negative => negb negative
  | Inf negative, Finite _ => negative
  | Inf negative, Inf negative' => negative && negb negative'
  end.

(** What [numpy.genfromtxt(fn, delimiter=',')] returns: a table of several
    records of several values is a two-dimensional array; axes of length
    one are squeezed away, so a single record or a single column is a
    one-dimensional array and a single value an array of no dimension. *)
Inductive ndarray :=
| Arr0 (value : fval)
| Arr1 (values : list fval)
| Arr2 (rows : list (list fval)).

(** Iterating over an array yields its rows; over a one-dimensional array,
    its scalars. *)
Inductive item :=
| Scalar (x : fval)
| Row (r : list fval).

Definition items_of (a : ndarray) : list item :=
  match a with
  | Arr0 _ => []
  | Arr1 values => Scalar <$> values
  | Arr2 rows => Row <$> rows
  end.

(** [iter(a)]: an array of no dimension cannot be iterated over. *)
Definition iter_array {S} (a : ndarray) : Py S (list item) :=
  match a with
  | Arr0 _ => raise TypeError
  | _ => mret (items_of a)
  end.

(** The file system [os] looks at: a path is absent, a directory with its
    entry names, or a regular file.  A file is given by its lines, and a
    line by its comma-separated fields as genfromtxt converts them: a
    number, or nan for a field that is missing or is no number.  A blank
    line has no field. *)
Inductive node :=
| Dir (entries : list string)
| File (lines : list (list fval)).

Definition isdir (p : string) (fs : gmap string node) : bool :=
  match fs !! p with Some (Dir _) => true | _ => false end.

Definition isfile (p : string) (fs : gmap string node) : bool :=
  match fs !! p with Some (File _) => true | _ => false end.

Definition listdir (p : string) (fs : gmap string node) : list string :=
  match fs !! p with Some (Dir entries) => entries | _ => [] end.

(** The lines genfromtxt keeps: it skips the blank ones. *)
Definition nonblank (lines : list (list fval)) : list (list fval) :=
  List.filter (fun l => negb (length l =? 0)%nat) lines.

(** Some line has another number of fields than the first. *)
Definition ragged (rows : list (list fval)) : bool :=
  match rows with
  | [] => false
  | first :: _ => negb (forallb (fun r => length r =? length first)%nat rows)
  end.

(** [numpy.squeeze] of the table of [rows], all of one length. *)
Definition squeeze (rows : list (list fval)) : ndarray :=
  match rows with
  | [] => Arr1 []
  | [r] => match r with [v] => Arr0 v | _ => Arr1 r end
  | first :: _ => if (length first =? 1)%nat then Arr1 (concat rows) else Arr2 rows
  end.

(** The array of a file of these lines, or the ValueError genfromtxt raises
    when the lines differ in their number of fields (its message goes on to
    list those lines). *)
Definition parse_table (lines : list (list fval)) : error + ndarray :=
  let rows := nonblank lines in
  if ragged rows then inl (ValueError "Some errors were detected !")
  else inr (squeeze rows).

Definition genfromtxt (p : string) : Py (gmap string node) ndarray :=
  fun fs =>
    match fs !! p with
    | Some (File lines) => (parse_table lines, fs)
    | _ => (inl OSError, fs)
    end.

(** [s.endswith(suffix)] *)
Definition endswith (s suffix : string) : bool :=
  let n := String.length s in
  let m := String.length suffix in
  (m <=? n)%nat && String.eqb (String.substring (n - m) m s) suffix.

(** The names of a directory listing that end with one of the extensions. *)
Definition image_names (exts names : list string) : list string :=
  List.filter (fun f => existsb (endswith f) exts) names.

(** [os.path.join(a, b)] for a relative [b] *)
Definition join (a b : string) : string :=
  if String.eqb a "" || endswith a "/" then a +:+ b else a +:+ "/" +:+ b.

(** [l[0::2]]; [l[1::2]] is [slice2 (tail l)] *)
Fixpoint slice2 {A} (l : list A) : list A :=
  match l with
  | [] => []
  | x :: l' => x :: match l' with [] => [] | _ :: l'' => slice2 l'' end
  end.

(** [gt[start::2]] for [start] 0 or 1: a scalar cannot be indexed. *)
Definition getslice {S} (gt : item) (start1 : bool) : Py S (list fval) :=
  match gt with
  | Scalar _ => raise IndexError
  | Row r => mret (slice2 (if start1 then tail r else r))
  end.

(** The builtins [min] and [max] called on the unpacked elements of [args]:
    no argument, or a single float, is a TypeError.  Otherwise the first
    argument is kept until a later one is smaller (greater). *)
Definition py_min {S} (args : list fval) : Py S fval :=
  match args with
  | x :: y :: rest =>
      mret (fold_left (fun cur v => if fval_ltb v cur then v else cur) (y :: rest) x)
  | _ => raise TypeError
  end.

Definition py_max {S} (args : list fval) : Py S fval :=
  match args with
  | x :: y :: rest =>
      mret (fold_left (fun cur v => if fval_ltb cur v then v else cur) (y :: rest) x)
  | _ => raise TypeError
  end.

(** A box as read from the ground-truth file:
    [numpy.array((min_x, min_y, max_x, max_y))]. *)
Record gtbox := mkgtbox {
  gt_min_x : fval;
  gt_min_y : fval;
  gt_max_x : fval;
  gt_max_y : fval
}.

Section Sequences.

Variable image : Type.
(** [torchvision.datasets.folder.IMG_EXTENSIONS] *)
Variable IMG_EXTENSIONS : list string.
(** [os.path.abspath] and [os.path.expanduser] *)
Variables abspath expanduser : string -> string.

Record Folder := mkFolder {
  loader : string -> image;
  fdata : list (string * gtbox)
}.

(** The body of [for fn, gt in zip(fnames, gtruth)]. *)
Definition entry {S} (folder : string) (p : string * item) : Py S (string * gtbox) :=
  let '(fn, gt) := p in
  let fn := join folder fn in
  pts_x ← getslice gt false;
  pts_y ← getslice gt true;
  min_x ← py_min pts_x;
  min_y ← py_min pts_y;
  max_x ← py_max pts_x;
  max_y ← py_max pts_y;
  mret (fn, mkgtbox min_x min_y max_x max_y).

Fixpoint entries {S} (folder : string) (pairs : list (string * item))
    (data : list (string * gtbox)) : Py S (list (string * gtbox)) :=
  match pairs with
  | [] => mret data
  | p :: rest => e ← entry folder p; entries folder rest (data ++ [e])
  end.

Definition Folder_init (folder : string) (loader : string -> image)
    : Py (gmap string node) Folder :=
  let folder := abspath (expanduser folder) in
  is_dir ← reads (isdir folder);
  if negb is_dir then raise (ValueError ("Not a valid foler: " +:+ folder))
  else
    let fn_gtruth := join folder "groundtruth.txt" in
    is_file ← reads (isfile fn_gtruth);
    if negb is_file then
      raise (ValueError ("Groundtruth file not found: " +:+ fn_gtruth))
    else
      names ← reads (listdir folder);
      let fnames := merge_sort String.le (image_names IMG_EXTENSIONS names) in
      gtruth ← genfromtxt fn_gtruth;
      records ← iter_array gtruth;
      data ← entries folder (zip fnames records) [];
      mret (mkFolder loader data).

Definition Folder_getitem (index : Z) : Py Folder (image * gtbox) :=
  data ← reads fdata;
  '(fn, gt) ← list_getitem data index;
  loader_ ← reads loader;
  mret (loader_ fn, gt).

Definition Folder_len (self : Folder) : nat := length (fdata self).

End Sequences.

Arguments mkFolder {image}.
Arguments fdata {image}.
Arguments loader {image}.
Arguments Folder_init {image}.
Arguments Folder_getitem {image}.
Arguments Folder_len {image}.

(** ** Notions of the specification *)

(** The geometric overlap of two boxes: the area of the rectangle they
    share, zero when they share none. *)
Definition overlap_area (lt br nlt nbr : vec) : Q :=
  Qmax 0 (Qmin (vx br) (vx nbr) - Qmax (vx lt) (vx nlt)) *
  Qmax 0 (Qmin (vy br) (vy nbr) - Qmax (vy lt) (vy nlt)).

(** The area of the box from [lt] to [br]: the product of its sizes. *)
Definition box_area (lt br : vec) : Q := prod (vsub br lt).

(** One box lies strictly beyond the other on some axis. *)
Definition strictly_apart (lt br nlt nbr : vec) : Prop :=
  vx br < vx nlt \/ vy br < vy nlt \/ vx nbr < vx lt \/ vy nbr < vy lt.

(** A point of the closed rectangle from [lt] to [br]. *)
Definition inside (p lt br : vec) : Prop :=
  vx lt <= vx p <= vx br /\ vy lt <= vy p <= vy br.

(** [lt <= br] on both axes. *)
Definition well_formed (lt br : vec) : Prop :=
  vx lt <= vx br /\ vy lt <= vy br.

(** The half-size a candidate would have if it followed the box of the
    call: half the size of [bbox], scaled by the draw. *)
Definition percall_half_size (bbox : bbox) (d : draw) : vec :=
  let '(lt, br) := reshape22 bbox in
  vdivs (vscale (vsub br lt) (pow_draw d)) 2.

(** The candidate of draw [d] fails the overlap test against [lt], [br]. *)
Definition rejected {image label} (self : SimpleSampler image label)
    (lt br : vec) (d : draw) : bool :=
  let '(nlt, nbr) := candidate_of self d in overlap_test lt br nlt nbr.

(** [c] is the candidate of draw [d], with either flag. *)
Definition drawn_from {image label} (self : SimpleSampler image label)
    (d : draw) (c : candidate) : Prop :=
  c.2 = concatenate (candidate_of self d).1 (candidate_of self d).2.

(** The quota counters are counts that fit the integer array. *)
Definition valid_num (n : Z * Z) : Prop :=
  (0 <= fst n < 2 ^ 63)%Z /\ (0 <= snd n < 2 ^ 63)%Z.

(** What the loop keeps true of [data] and [remain]: each counter is what is
    left of its quota. *)
Definition quota_inv (n : Z * Z) (st : loop_state) : Prop :=
  (0 <= fst (remain st))%Z /\ (0 <= snd (remain st))%Z /\
  (Z.of_nat (count_pos (data st)) + fst (remain st) = fst n)%Z /\
  (Z.of_nat (count_neg (data st)) + snd (remain st) = snd n)%Z.

(** ** Notions for the loop as a whole *)

(** What the loop body does with the candidate of draw [d]: hand it to
    [add_data] with a flag, or drop it. *)
Definition earned {image label} (self : SimpleSampler image label)
    (lt br : vec) (area : Q) (d : draw) : option bool :=
  let '(nlt, nbr) := candidate_of self d in
  if overlap_test lt br nlt nbr then Some false
  else
    let iou := iou_of area lt br nlt nbr (nsize_2 self d) in
    if fge iou (thres_pos self) then Some true
    else if flt iou (thres_neg self) then Some false
    else None.

(** The entry that draw [d] offers to [data]. *)
Definition offered {image label} (self : SimpleSampler image label)
    (lt br : vec) (area : Q) (d : draw) : option candidate :=
  (fun b => (b, concatenate (candidate_of self d).1 (candidate_of self d).2))
    <$> earned self lt br area d.

(** [remain[int(not is_pos)]] *)
Definition quota (is_pos : bool) (r : Z * Z) : Z := if is_pos then fst r else snd r.

(** [self.transforms] applied when there is one. *)
Definition apply_transform {A} (f : option (A -> A)) (a : A) : A :=
  match f with Some g => g a | None => a end.

(** The label of a candidate: the transform of its class applied to the
    box, the raw box when that class has no transform. *)
Definition label_of {label} (pos neg : option (bbox -> label)) (c : candidate)
    : target label :=
  match (if c.1 then pos else neg) with
  | Some f => Transformed (f c.2)
  | None => Raw c.2
  end.

(** The position Python reads for [index] in a list of length [n]. *)
Definition position (n : nat) (index : Z) : nat :=
  Z.to_nat (if (index <? 0)%Z then Z.of_nat n + index else index).

(** ** Notions for the sequence index *)

(** A record the loop body can reduce to a box: a row of at least four
    values. *)
Definition usable (gt : item) : bool :=
  match gt with
  | Scalar _ => false
  | Row r => (4 <=? length r)%nat
  end.

(** A record of numbers, as the fields of a line. *)
Definition numbers (qs : list Q) : list fval := Finite <$> qs.

(** A box of numbers, as a box read from a file. *)
Definition numbers_box (b : bbox) : gtbox :=
  mkgtbox (Finite (min_x b)) (Finite (min_y b)) (Finite (max_x b)) (Finite (max_y b)).

(** [b] is the tight axis-aligned box of the points of a record of numbers
    [r], whose x-coordinates are at the even and y-coordinates at the odd
    positions: it bounds every point, and each of its four coordinates is
    the coordinate of a point. *)
Definition tight_box (r : list Q) (b : bbox) : Prop :=
  (forall k x, r !! (2 * k)%nat = Some x -> min_x b <= x <= max_x b) /\
  (forall k y, r !! (2 * k + 1)%nat = Some y -> min_y b <= y <= max_y b) /\
  (exists k, r !! (2 * k)%nat = Some (min_x b)) /\
  (exists k, r !! (2 * k)%nat = Some (max_x b)) /\
  (exists k, r !! (2 * k + 1)%nat = Some (min_y b)) /\
  (exists k, r !! (2 * k + 1)%nat = Some (max_y b)).

(** The scale arguments of the two calls to [numpy.random.normal], [sigma]
    and [self.sigma_s], are not negative: a negative scale makes it raise
    ValueError instead of answering with a draw. *)
Definition scales_accepted {image label} (self : SimpleSampler image label)
    (bbox : bbox) : bool :=
  let '(lt, br) := reshape22 bbox in
  let sz := mean (vsub br lt) in
  let sigma := vscale (sigma_t _ _ self) sz in
  Qle_bool 0 (vx sigma) && Qle_bool 0 (vy sigma) && Qle_bool 0 (sigma_s _ _ self).

(** ** Worked inputs *)

(** The reference box (0,0,10,10) and the default thresholds. *)
Definition box10 : bbox := mkbbox 0 0 10 10.

Definition sampler10 (num : Z * Z) : SimpleSampler unit unit :=
  SimpleSampler_init unit unit box10 None None None num (0.7, 0.5) (mkvec 0.3 0.3) 0.5.

(** Draws whose candidates are (5,5,15,15), (0,0,10,10), (15,15,25,25) and
    (10,0,20,10) when the half-size is (5,5). *)
Definition draw_corner : draw := mkdraw (mkvec 10 10) 1.
Definition draw_same : draw := mkdraw (mkvec 5 5) 1.
Definition draw_far : draw := mkdraw (mkvec 20 20) 1.
Definition draw_touching : draw := mkdraw (mkvec 15 5) 1.

(** A reference box twice as large, and a box of size zero with a sampler
    built on it. *)
Definition box20 : bbox := mkbbox 0 0 20 20.
Definition box0 : bbox := mkbbox 0 0 0 0.

Definition sampler0 (num : Z * Z) : SimpleSampler unit unit :=
  SimpleSampler_init unit unit box0 None None None num (0.7, 0.5) (mkvec 0.3 0.3) 0.5.

Definition draw_origin : draw := mkdraw (mkvec 0 0) 1.

(** A sequence folder with three images and two ground-truth records, and
    a file system without it. *)
Definition extensions : list string := [".jpg"; ".png"].

Definition fs_seq : gmap string node :=
  <[ "/seq" := Dir ["b.jpg"; "a.jpg"; "groundtruth.txt"; "c.png"] ]>
  (<[ "/seq/groundtruth.txt" :=
        File [numbers [0; 0; 10; 0; 10; 10; 0; 10]; numbers [1; 2; 3; 4; 5; 6; 7; 8]] ]> ∅).

Definition fs_empty : gmap string node := ∅.

(** Folders of two images whose ground-truth file holds a single record,
    two records of three values, and two records of four and of three
    values; and an index of two entries. *)
Definition fs_single : gmap string node :=
  <[ "/seq" := Dir ["a.jpg"; "b.jpg"; "groundtruth.txt"] ]>
  (<[ "/seq/groundtruth.txt" := File [numbers [0; 0; 10; 10]] ]> ∅).

Definition fs_short : gmap string node :=
  <[ "/seq" := Dir ["a.jpg"; "b.jpg"; "groundtruth.txt"] ]>
  (<[ "/seq/groundtruth.txt" := File [numbers [0; 0; 10]; numbers [1; 2; 3]] ]> ∅).

Definition fs_ragged : gmap string node :=
  <[ "/seq" := Dir ["a.jpg"; "b.jpg"; "groundtruth.txt"] ]>
  (<[ "/seq/groundtruth.txt" := File [numbers [0; 0; 10; 10]; numbers [1; 2; 3]] ]> ∅).

Definition folder2 : Folder string :=
  mkFolder (fun fn => fn)
    [("/seq/a.jpg", numbers_box box10); ("/seq/b.jpg", numbers_box box20)].

(** * Properties *)

(** ** Comparisons *)

Lemma Qltb_lt (a b : Q) : Qltb a b = true <-> a < b.
Proof.
  unfold Qltb. rewrite negb_true_iff. split.
  - intros H. apply Qnot_le_lt. intros Hle. apply Qle_bool_iff in Hle. congruence.
  - intros H. destruct (Qle_bool b a) eqn:E; [|reflexivity].
    apply Qle_bool_iff in E. exfalso. exact (Qlt_not_le _ _ H E).
Qed.

(** ** The quota counters *)

Section Quotas.

Context {image label : Type}.
Variable self : SimpleSampler image label.
Variables lt br : vec.
Variable area : Q.

Lemma wrap64_small (z : Z) : (- 2 ^ 63 <= z < 2 ^ 63)%Z -> wrap64 z = z.
Proof.
  intros H. unfold wrap64. rewrite Z.mod_small; lia.
Qed.

Lemma count_pos_app (l : list candidate) (c : candidate) :
  count_pos (l ++ [c]) = (count_pos l + (if fst c then 1 else 0))%nat.
Proof.
  unfold count_pos. rewrite List.filter_app, length_app. simpl.
  destruct (fst c); reflexivity.
Qed.

Lemma count_neg_app (l : list candidate) (c : candidate) :
  count_neg (l ++ [c]) = (count_neg l + (if fst c then 0 else 1))%nat.
Proof.
  unfold count_neg. rewrite List.filter_app, length_app. simpl.
  destruct (fst c); reflexivity.
Qed.

Lemma count_pos_neg_length (l : list candidate) :
  (count_pos l + count_neg l)%nat = length l.
Proof.
  unfold count_pos, count_neg.
  induction l as [|[b c] l IH]; simpl; [reflexivity|].
  destruct b; simpl; lia.
Qed.

Lemma add_data_inv (n : Z * Z) (is_pos : bool) (nlt nbr : vec) (st : loop_state) :
  valid_num n -> quota_inv n st -> quota_inv n (add_data is_pos nlt nbr st).
Proof.
  intros [Hp Hn] (H1 & H2 & H3 & H4). unfold add_data.
  destruct is_pos; simpl.
  - destruct (Z.eqb_spec (fst (remain st)) 0) as [E|E]; [repeat split; assumption|].
    unfold quota_inv; simpl. rewrite count_pos_app, count_neg_app; simpl.
    rewrite wrap64_small by lia. repeat split; lia.
  - destruct (Z.eqb_spec (snd (remain st)) 0) as [E|E]; [repeat split; assumption|].
    unfold quota_inv; simpl. rewrite count_pos_app, count_neg_app; simpl.
    rewrite wrap64_small by lia. repeat split; lia.
Qed.

Lemma iteration_inv (n : Z * Z) (d : draw) (st : loop_state) :
  valid_num n -> quota_inv n st -> quota_inv n (iteration self lt br area d st).1.1.
Proof.
  intros Hn Hst. unfold iteration.
  destruct (candidate_of self d) as [nlt nbr].
  destruct (overlap_test lt br nlt nbr); simpl; [by apply add_data_inv|].
  destruct (fge _ _); [by apply add_data_inv|].
  destruct (flt _ _); [by apply add_data_inv|assumption].
Qed.

(** The loop is left only through [break], that is with [all(remain == 0)]. *)
Lemma iteration_exit (d : draw) (st : loop_state) :
  (iteration self lt br area d st).2 = true ->
  all_zero (remain (iteration self lt br area d st).1.1) = true.
Proof.
  unfold iteration. destruct (candidate_of self d) as [nlt nbr].
  destruct (overlap_test lt br nlt nbr); simpl; [discriminate|]. auto.
Qed.

Lemma sampling_loop_inv (n : Z * Z) (draws : list draw) :
  valid_num n ->
  forall (st st' : loop_state) (evs : list event),
    quota_inv n st ->
    sampling_loop self lt br area draws st = Some (st', evs) ->
    quota_inv n st' /\ all_zero (remain st') = true /\
    (1 <= length evs <= length draws)%nat.
Proof.
  intros Hn. induction draws as [|d ds IH]; intros st st' evs Hst Hrun; simpl in Hrun.
  - discriminate.
  - pose proof (iteration_inv n d st Hn Hst) as Hinv.
    pose proof (iteration_exit d st) as Hexit.
    destruct (iteration self lt br area d st) as [[st1 ev] exit]; simpl in *.
    destruct exit.
    + injection Hrun as <- <-.
      split; [exact Hinv|]. split; [auto|]. simpl; lia.
    + destruct (sampling_loop self lt br area ds st1) as [[st2 evs2]|] eqn:E; [|discriminate].
      injection Hrun as <- <-.
      destruct (IH _ _ _ Hinv E) as (Hq & Hz & Hl).
      split; [exact Hq|]. split; [exact Hz|]. simpl; lia.
Qed.

Lemma all_zero_eq (r : Z * Z) : all_zero r = true -> r = (0, 0)%Z.
Proof.
  destruct r as [a b]. unfold all_zero; simpl.
  rewrite andb_true_iff, !Z.eqb_eq. intros [-> ->]. reflexivity.
Qed.

End Quotas.

(** C1: whenever the sampling loop terminates, the returned view is over the
    given image and its candidate list has exactly [num_pos + num_neg]
    entries, [num_pos] of them flagged positive and [num_neg] flagged
    negative. *)
Theorem sample_fills_quotas {image label} (self : SimpleSampler image label)
    (im : image) (box : bbox) (draws : list draw) (view : RegionDataset image label) :
  valid_num (num self) ->
  SimpleSampler_call self im box draws = Some view ->
  img view = im /\
  Z.of_nat (length (crops view)) = (fst (num self) + snd (num self))%Z /\
  Z.of_nat (count_pos (crops view)) = fst (num self) /\
  Z.of_nat (count_neg (crops view)) = snd (num self).
Proof.
  intros Hn Hcall. unfold SimpleSampler_call, call_trace in Hcall.
  destruct (reshape22 box) as [lt br].
  destruct (sampling_loop _ _ _ _ _ _) as [[st evs]|] eqn:Hloop; [|discriminate].
  injection Hcall as <-. simpl.
  assert (Hinit : quota_inv (num self) (mkstate [] (num self))).
  { destruct Hn as [Hp Hq]. unfold quota_inv; simpl. repeat split; lia. }
  destruct (sampling_loop_inv self lt br _ (num self) draws Hn _ _ _ Hinit Hloop)
    as ((_ & _ & Hpos & Hneg) & Hzero & _).
  apply all_zero_eq in Hzero. rewrite Hzero in Hpos, Hneg. simpl in Hpos, Hneg.
  split; [reflexivity|].
  rewrite <- (count_pos_neg_length (data st)). lia.
Qed.

Lemma sample_fills_quotas_witness :
  valid_num (num (sampler10 (1, 1)%Z)) /\
  exists view,
    SimpleSampler_call (sampler10 (1, 1)%Z) tt box10 [draw_corner; draw_same] = Some view /\
    length (crops view) = 2%nat /\ count_pos (crops view) = 1%nat /\
    count_neg (crops view) = 1%nat.
Proof.
  assert (Hn : valid_num (num (sampler10 (1, 1)%Z))).
  { unfold valid_num; simpl; lia. }
  split; [exact Hn|].
  eexists. split; [vm_compute; reflexivity|].
  destruct (sample_fills_quotas (sampler10 (1, 1)%Z) tt box10
              [draw_corner; draw_same] _ Hn eq_refl) as (_ & Hl & Hp & Hq).
  simpl in Hl, Hp, Hq. repeat split; lia.
Defined.

(** ** The loop once both quotas are filled *)

Section FilledQuotas.

Context {image label : Type}.
Variable self : SimpleSampler image label.
Variables lt br : vec.
Variable area : Q.

Lemma add_data_full (is_pos : bool) (nlt nbr : vec) (st : loop_state) :
  remain st = (0, 0)%Z -> add_data is_pos nlt nbr st = st.
Proof.
  intros H. unfold add_data. rewrite H. destruct is_pos; reflexivity.
Qed.

(** A candidate that fails the overlap test takes the [continue]. *)
Lemma iteration_rejected (d : draw) (st : loop_state) :
  rejected self lt br d = true ->
  iteration self lt br area d st =
    (add_data false (candidate_of self d).1 (candidate_of self d).2 st, Disjoint, false).
Proof.
  unfold rejected, iteration. destruct (candidate_of self d) as [nlt nbr].
  intros ->. reflexivity.
Qed.

(** A candidate that passes it reaches the loop breaker. *)
Lemma iteration_scored (d : draw) (st : loop_state) :
  rejected self lt br d = false ->
  exists st',
    iteration self lt br area d st =
      (st', IoU (iou_of area lt br (candidate_of self d).1 (candidate_of self d).2
                   (nsize_2 self d)), all_zero (remain st'))
    /\ (remain st = (0, 0)%Z -> st' = st).
Proof.
  unfold rejected, iteration. destruct (candidate_of self d) as [nlt nbr].
  intros ->. simpl. eexists. split; [reflexivity|].
  intros H. rewrite !add_data_full by exact H.
  destruct (fge _ _); [reflexivity|]. destruct (flt _ _); reflexivity.
Qed.

Lemma loop_rejected_cons (d : draw) (ds : list draw) (st : loop_state) :
  rejected self lt br d = true ->
  sampling_loop self lt br area (d :: ds) st =
    match sampling_loop self lt br area ds
            (add_data false (candidate_of self d).1 (candidate_of self d).2 st) with
    | Some (st', evs) => Some (st', Disjoint :: evs)
    | None => None
    end.
Proof.
  intros H. simpl. rewrite (iteration_rejected d st H). reflexivity.
Qed.

Lemma loop_full_rejected (pre : list draw) (st : loop_state) :
  remain st = (0, 0)%Z ->
  Forall (fun d => rejected self lt br d = true) pre ->
  sampling_loop self lt br area pre st = None.
Proof.
  intros Hst Hpre. induction Hpre as [|d ds Hd _ IH]; [reflexivity|].
  rewrite (loop_rejected_cons d ds st Hd), add_data_full by exact Hst.
  rewrite IH. reflexivity.
Qed.

Lemma loop_full_exit (pre : list draw) (d : draw) (post : list draw) (st : loop_state) :
  remain st = (0, 0)%Z ->
  Forall (fun d => rejected self lt br d = true) pre ->
  rejected self lt br d = false ->
  sampling_loop self lt br area (pre ++ d :: post) st =
    Some (st, replicate (length pre) Disjoint ++
              [IoU (iou_of area lt br (candidate_of self d).1 (candidate_of self d).2
                      (nsize_2 self d))]).
Proof.
  intros Hst Hpre Hd. induction Hpre as [|d' ds Hd' _ IH].
  - simpl. destruct (iteration_scored d st Hd) as (st' & -> & Heq).
    rewrite (Heq Hst), Hst. reflexivity.
  - change ((d' :: ds) ++ d :: post) with (d' :: (ds ++ d :: post)).
    rewrite (loop_rejected_cons d' _ st Hd'), add_data_full by exact Hst.
    rewrite IH. reflexivity.
Qed.

(** The draws are all rejected, or split at the first one that is not. *)
Lemma first_not_rejected (draws : list draw) :
  Forall (fun d => rejected self lt br d = true) draws \/
  exists pre d post,
    draws = pre ++ d :: post /\
    Forall (fun d => rejected self lt br d = true) pre /\
    rejected self lt br d = false.
Proof.
  induction draws as [|d ds IH]; [left; constructor|].
  destruct (rejected self lt br d) eqn:Hd.
  - destruct IH as [IH|(pre & d' & post & -> & Hpre & Hd')].
    + left. constructor; assumption.
    + right. exists (d :: pre), d', post. repeat split; [constructor; assumption|assumption].
  - right. exists [], d, ds. repeat split; [constructor|assumption].
Qed.

End FilledQuotas.

(** C10: the loop breaker is reached only by an iteration whose candidate
    passes the overlap test, and by each of those.  A rejected draw never
    leaves the loop; with both quotas filled the loop keeps drawing through
    rejected candidates, changing nothing, and leaves at the first candidate
    that passes the test. *)
Theorem break_only_after_overlap_test {image label} (self : SimpleSampler image label)
    (lt br : vec) (area : Q) (pre : list draw) (d : draw) (post : list draw)
    (st : loop_state) :
  remain st = (0, 0)%Z ->
  Forall (fun d => rejected self lt br d = true) pre ->
  rejected self lt br d = false ->
  (forall d' st', rejected self lt br d' = true ->
                  (iteration self lt br area d' st').2 = false) /\
  (forall d' st', rejected self lt br d' = false ->
                  (iteration self lt br area d' st').2 =
                    all_zero (remain (iteration self lt br area d' st').1.1)) /\
  sampling_loop self lt br area pre st = None /\
  sampling_loop self lt br area (pre ++ d :: post) st =
    Some (st, replicate (length pre) Disjoint ++
              [IoU (iou_of area lt br (candidate_of self d).1 (candidate_of self d).2
                      (nsize_2 self d))]).
Proof.
  intros Hst Hpre Hd. split; [|split; [|split]].
  - intros d' st' Hd'. rewrite (iteration_rejected self lt br area d' st' Hd').
    reflexivity.
  - intros d' st' Hd'.
    destruct (iteration_scored self lt br area d' st' Hd') as (st'' & -> & _).
    reflexivity.
  - apply loop_full_rejected; assumption.
  - apply loop_full_exit; assumption.
Qed.

Lemma break_only_after_overlap_test_witness :
  sampling_loop (sampler10 (0, 0)%Z) (mkvec 0 0) (mkvec 10 10) 10
    [draw_far; draw_far] (mkstate [] (0, 0)%Z) = None /\
  exists v,
    sampling_loop (sampler10 (0, 0)%Z) (mkvec 0 0) (mkvec 10 10) 10
      ([draw_far; draw_far] ++ draw_corner :: [draw_same]) (mkstate [] (0, 0)%Z)
    = Some (mkstate [] (0, 0)%Z, [Disjoint; Disjoint; IoU v]).
Proof.
  assert (Hpre : Forall (fun d => rejected (sampler10 (0, 0)%Z) (mkvec 0 0) (mkvec 10 10) d = true)
                   [draw_far; draw_far]).
  { repeat constructor. }
  destruct (break_only_after_overlap_test (sampler10 (0, 0)%Z) (mkvec 0 0) (mkvec 10 10) 10
              [draw_far; draw_far] draw_corner [draw_same] (mkstate [] (0, 0)%Z)
              eq_refl Hpre eq_refl) as (_ & _ & Hnone & Hsome).
  split; [exact Hnone|]. eexists. exact Hsome.
Defined.

(** C6, as stated, fails: with [num = (0, 0)] a call that is given no draw
    has not terminated, nor has one whose first candidate is disjoint from
    the reference box; the call below returns its empty list only at the
    second draw. *)
Lemma zero_quota_still_draws :
  call_trace (sampler10 (0, 0)%Z) tt box10 [] = None /\
  call_trace (sampler10 (0, 0)%Z) tt box10 [draw_far] = None /\
  exists view v,
    call_trace (sampler10 (0, 0)%Z) tt box10 [draw_far; draw_corner]
      = Some (view, [Disjoint; IoU v]) /\
    crops view = [].
Proof.
  split; [reflexivity|]. split; [reflexivity|].
  eexists _, _. split; vm_compute; reflexivity.
Qed.

(** C6, amended: with [num = (0, 0)] the loop body runs before the loop
    breaker is tested, so a call draws at least once.  When the random
    source accepts the scales, the call goes on drawing while the
    candidates fail the overlap test, and returns at the first draw whose
    candidate passes it, with an empty candidate list; it returns in no
    other way. *)
Theorem zero_quota_call {image label} (self : SimpleSampler image label)
    (im : image) (box : bbox) (pre : list draw) (d : draw) (post : list draw) :
  num self = (0, 0)%Z ->
  scales_accepted self box = true ->
  let '(lt, br) := reshape22 box in
  Forall (fun d => rejected self lt br d = true) pre ->
  rejected self lt br d = false ->
  call_trace self im box [] = None /\
  call_trace self im box pre = None /\
  call_trace self im box (pre ++ d :: post) =
    Some (mkRegionDataset im [] (s_transforms _ _ self)
            (s_target_transforms_pos _ _ self) (s_target_transforms_neg _ _ self),
          replicate (length pre) Disjoint ++
          [IoU (iou_of (prod0 (mean (vsub br lt))) lt br
                  (candidate_of self d).1 (candidate_of self d).2 (nsize_2 self d))]) /\
  (forall draws view evs,
     call_trace self im box draws = Some (view, evs) ->
     crops view = [] /\ (1 <= length evs)%nat /\
     exists pre' d' post',
       draws = pre' ++ d' :: post' /\
       Forall (fun d => rejected self lt br d = true) pre' /\
       rejected self lt br d' = false /\
       length evs = S (length pre')).
Proof.
  intros Hnum _. destruct (reshape22 box) as [lt br] eqn:Hbox.
  intros Hpre Hd.
  split; [|split; [|split]].
  - unfold call_trace. rewrite Hbox. reflexivity.
  - unfold call_trace. rewrite Hbox, Hnum.
    rewrite loop_full_rejected by (reflexivity || assumption). reflexivity.
  - unfold call_trace. rewrite Hbox, Hnum.
    rewrite loop_full_exit by (reflexivity || assumption). reflexivity.
  - intros draws view evs. unfold call_trace. rewrite Hbox, Hnum.
    destruct (first_not_rejected self lt br draws)
      as [Hall|(pre' & d' & post' & -> & Hpre' & Hd')].
    + rewrite loop_full_rejected by (reflexivity || assumption). discriminate.
    + rewrite loop_full_exit by (reflexivity || assumption).
      intros [= <- <-]. simpl. rewrite length_app, length_replicate. simpl.
      split; [reflexivity|]. split; [lia|].
      exists pre', d', post'. repeat split; try assumption. lia.
Qed.

Lemma zero_quota_call_witness :
  num (sampler10 (0, 0)%Z) = (0, 0)%Z /\
  scales_accepted (sampler10 (0, 0)%Z) box10 = true /\
  call_trace (sampler10 (0, 0)%Z) tt box10 [draw_far; draw_far] = None /\
  exists v,
    call_trace (sampler10 (0, 0)%Z) tt box10 ([draw_far; draw_far] ++ draw_corner :: [draw_same])
    = Some (mkRegionDataset tt [] None None None, [Disjoint; Disjoint; IoU v]).
Proof.
  split; [reflexivity|]. split; [reflexivity|].
  assert (Hpre : Forall (fun d => rejected (sampler10 (0, 0)%Z) (mkvec 0 0) (mkvec 10 10) d
                                  = true) [draw_far; draw_far]).
  { repeat constructor. }
  destruct (zero_quota_call (sampler10 (0, 0)%Z) tt box10 [draw_far; draw_far] draw_corner
              [draw_same] eq_refl eq_refl Hpre eq_refl) as (_ & Hnone & Hsome & _).
  split; [exact Hnone|]. eexists. exact Hsome.
Defined.

(** ** The IoU of a candidate *)

(** C2, on the code: for the reference box (0,0,10,10) and the candidate
    (5,5,15,15) of half-size (5,5) the loop takes the mean side 10 of the
    reference box as its area, not 100, so the IoU it computes is 25/85 and
    not 25/175; the candidate is still appended as a negative.  The same
    area gives the candidate (0,0,10,10), equal to the reference box, the
    IoU 10. *)
Theorem corner_scenario_iou :
  exists q q' b view,
    call_trace (sampler10 (1, 1)%Z) tt box10 [draw_corner; draw_same]
      = Some (view, [IoU (Finite q); IoU (Finite q')]) /\
    nth_error (crops view) 0 = Some (false, b) /\
    min_x b == 5 /\ min_y b == 5 /\ max_x b == 15 /\ max_y b == 15 /\
    vx (nsize_2 (sampler10 (1, 1)%Z) draw_corner) == 5 /\
    vy (nsize_2 (sampler10 (1, 1)%Z) draw_corner) == 5 /\
    area_over_of (mkvec 0 0) (mkvec 10 10) (mkvec 5 5) (mkvec 15 15) == 25 /\
    box_area (mkvec 0 0) (mkvec 10 10) == 100 /\
    prod0 (mean (vsub (mkvec 10 10) (mkvec 0 0))) == 10 /\
    q == 25 # 85 /\ ~ q == 25 # 175 /\ q' == 10.
Proof.
  eexists _, _, _, _. split; [vm_compute; reflexivity|].
  split; [reflexivity|]. repeat split; try reflexivity. discriminate.
Qed.

(** ** The overlap test *)

Lemma overlap_test_apart (lt br nlt nbr : vec) :
  overlap_test lt br nlt nbr = true <-> strictly_apart lt br nlt nbr.
Proof.
  unfold overlap_test, any_lt, any_gt, strictly_apart.
  rewrite !orb_true_iff, !Qltb_lt. tauto.
Qed.

Lemma Qmax0_neg (x : Q) : x < 0 -> Qmax 0 x == 0.
Proof.
  intros H. apply Q.max_l. apply Qlt_le_weak. exact H.
Qed.

(** Boxes strictly apart share no area. *)
Lemma apart_overlap_area (lt br nlt nbr : vec) :
  strictly_apart lt br nlt nbr -> overlap_area lt br nlt nbr == 0.
Proof.
  unfold strictly_apart, overlap_area. intros H.
  assert (Hx : vx br < vx nlt \/ vx nbr < vx lt -> 
               Qmin (vx br) (vx nbr) - Qmax (vx lt) (vx nlt) < 0).
  { pose proof (Q.le_min_l (vx br) (vx nbr)). pose proof (Q.le_min_r (vx br) (vx nbr)).
    pose proof (Q.le_max_l (vx lt) (vx nlt)). pose proof (Q.le_max_r (vx lt) (vx nlt)).
    intros [?|?]; lra. }
  assert (Hy : vy br < vy nlt \/ vy nbr < vy lt -> 
               Qmin (vy br) (vy nbr) - Qmax (vy lt) (vy nlt) < 0).
  { pose proof (Q.le_min_l (vy br) (vy nbr)). pose proof (Q.le_min_r (vy br) (vy nbr)).
    pose proof (Q.le_max_l (vy lt) (vy nlt)). pose proof (Q.le_max_r (vy lt) (vy nlt)).
    intros [?|?]; lra. }
  destruct H as [H|[H|[H|H]]].
  - rewrite (Qmax0_neg _ (Hx (or_introl H))). ring.
  - rewrite (Qmax0_neg _ (Hy (or_introl H))). ring.
  - rewrite (Qmax0_neg _ (Hx (or_intror H))). ring.
  - rewrite (Qmax0_neg _ (Hy (or_intror H))). ring.
Qed.

(** For boxes with [lt <= br], being strictly apart is sharing no point. *)
Lemma apart_no_common_point (lt br nlt nbr : vec) :
  well_formed lt br -> well_formed nlt nbr ->
  (strictly_apart lt br nlt nbr <->
   forall p, ~ (inside p lt br /\ inside p nlt nbr)).
Proof.
  unfold well_formed, strictly_apart, inside. intros [Hx Hy] [Hnx Hny]. split.
  - intros H p [[[? ?] [? ?]] [[? ?] [? ?]]]. destruct H as [H|[H|[H|H]]]; lra.
  - intros H.
    destruct (Qlt_le_dec (vx br) (vx nlt)) as [?|Hx1]; [tauto|].
    destruct (Qlt_le_dec (vy br) (vy nlt)) as [?|Hy1]; [tauto|].
    destruct (Qlt_le_dec (vx nbr) (vx lt)) as [?|Hx2]; [tauto|].
    destruct (Qlt_le_dec (vy nbr) (vy lt)) as [?|Hy2]; [tauto|].
    exfalso.
    apply (H (mkvec (Qmax (vx lt) (vx nlt)) (Qmax (vy lt) (vy nlt)))). simpl.
    pose proof (Q.le_max_l (vx lt) (vx nlt)). pose proof (Q.le_max_r (vx lt) (vx nlt)).
    pose proof (Q.le_max_l (vy lt) (vy nlt)). pose proof (Q.le_max_r (vy lt) (vy nlt)).
    assert (Qmax (vx lt) (vx nlt) <= vx br) by (apply Q.max_lub; assumption).
    assert (Qmax (vx lt) (vx nlt) <= vx nbr) by (apply Q.max_lub; assumption).
    assert (Qmax (vy lt) (vy nlt) <= vy br) by (apply Q.max_lub; assumption).
    assert (Qmax (vy lt) (vy nlt) <= vy nbr) by (apply Q.max_lub; assumption).
    tauto.
Qed.

(** C3, as stated, fails: the candidate (10,0,20,10) touches the reference
    box (0,0,10,10) along an edge.  Their overlap area is zero, yet the
    overlap test does not fire and the IoU expression is evaluated (to 0).
    The same holds of the candidate of size zero at (5,5), inside the
    reference box, that a sampler built on a box of size zero forms. *)
Lemma touching_boxes_are_scored :
  (let '(nlt, nbr) := candidate_of (sampler10 (1, 1)%Z) draw_touching in
   vx nlt == 10 /\ vy nlt == 0 /\ vx nbr == 20 /\ vy nbr == 10 /\
   overlap_area (mkvec 0 0) (mkvec 10 10) nlt nbr == 0 /\
   overlap_test (mkvec 0 0) (mkvec 10 10) nlt nbr = false /\
   exists q st',
     iteration (sampler10 (1, 1)%Z) (mkvec 0 0) (mkvec 10 10) 10 draw_touching
       (mkstate [] (1, 1)%Z) = (st', IoU (Finite q), false) /\
     q == 0) /\
  (let '(nlt, nbr) := candidate_of (sampler0 (1, 1)%Z) draw_same in
   overlap_area (mkvec 0 0) (mkvec 10 10) nlt nbr == 0 /\
   overlap_test (mkvec 0 0) (mkvec 10 10) nlt nbr = false /\
   exists q st',
     iteration (sampler0 (1, 1)%Z) (mkvec 0 0) (mkvec 10 10) 10 draw_same
       (mkstate [] (1, 1)%Z) = (st', IoU (Finite q), false) /\
     q == 0).
Proof.
  split.
  - vm_compute. repeat split; try reflexivity. eexists _, _. split; reflexivity.
  - vm_compute. repeat split; try reflexivity. eexists _, _. split; reflexivity.
Qed.

(** C3, amended: when the candidate box lies strictly beyond the reference
    box on some axis, the overlap test fires, the candidate is handed to
    [add_data] as a negative at once, the iteration evaluates no IoU, and
    the two boxes indeed share no area.  The test fires in no other case. *)
Theorem apart_candidates_skip_iou {image label} (self : SimpleSampler image label)
    (lt br : vec) (area : Q) (d : draw) (st : loop_state) :
  strictly_apart lt br (candidate_of self d).1 (candidate_of self d).2 ->
  overlap_test lt br (candidate_of self d).1 (candidate_of self d).2 = true /\
  iteration self lt br area d st =
    (add_data false (candidate_of self d).1 (candidate_of self d).2 st, Disjoint, false) /\
  overlap_area lt br (candidate_of self d).1 (candidate_of self d).2 == 0 /\
  (forall d', overlap_test lt br (candidate_of self d').1 (candidate_of self d').2 = true ->
              strictly_apart lt br (candidate_of self d').1 (candidate_of self d').2).
Proof.
  intros H. pose proof (proj2 (overlap_test_apart _ _ _ _) H) as Ht.
  split; [exact Ht|]. split; [|split].
  - apply iteration_rejected. unfold rejected.
    destruct (candidate_of self d); exact Ht.
  - apply apart_overlap_area; exact H.
  - intros d' Hd'. apply overlap_test_apart; exact Hd'.
Qed.

Lemma apart_candidates_skip_iou_witness :
  strictly_apart (mkvec 0 0) (mkvec 10 10)
    (candidate_of (sampler10 (1, 1)%Z) draw_far).1
    (candidate_of (sampler10 (1, 1)%Z) draw_far).2 /\
  (iteration (sampler10 (1, 1)%Z) (mkvec 0 0) (mkvec 10 10) 10 draw_far
     (mkstate [] (1, 1)%Z)).1.2 = Disjoint.
Proof.
  assert (H : strictly_apart (mkvec 0 0) (mkvec 10 10)
                (candidate_of (sampler10 (1, 1)%Z) draw_far).1
                (candidate_of (sampler10 (1, 1)%Z) draw_far).2).
  { left. vm_compute. reflexivity. }
  split; [exact H|].
  destruct (apart_candidates_skip_iou (sampler10 (1, 1)%Z) (mkvec 0 0) (mkvec 10 10) 10
              draw_far (mkstate [] (1, 1)%Z) H) as (_ & -> & _).
  reflexivity.
Defined.

(** ** Division by a zero union-area *)

Lemma fdiv_zero (a b : Q) :
  b == 0 ->
  (a == 0 -> fdiv a b = NaN) /\
  (~ a == 0 -> fdiv a b = Inf (Qltb a 0)) /\
  (forall q, fdiv a b <> Finite q).
Proof.
  intros Hb. unfold fdiv.
  apply Qeq_bool_iff in Hb. rewrite Hb.
  destruct (Qeq_bool a 0) eqn:Ha.
  - apply Qeq_bool_iff in Ha. repeat split; [tauto|discriminate].
  - repeat split; [|discriminate].
    intros H. apply Qeq_bool_iff in H. congruence.
Qed.

(** C4, as stated, fails: for a reference box and an initial box of size
    zero the candidate drawn at the centre passes the overlap test with
    union-area zero, and the IoU the loop computes is nan, not 0. *)
Lemma zero_union_gives_nan :
  let '(nlt, nbr) := candidate_of (sampler0 (1, 1)%Z) draw_origin in
  area_union_of 0 (nsize_2 (sampler0 (1, 1)%Z) draw_origin)
    (area_over_of (mkvec 0 0) (mkvec 0 0) nlt nbr) == 0 /\
  call_trace (sampler0 (0, 0)%Z) tt box0 [draw_origin]
    = Some (mkRegionDataset tt [] None None None, [IoU NaN]) /\
  forall q, q == 0 ->
    call_trace (sampler0 (0, 0)%Z) tt box0 [draw_origin]
      <> Some (mkRegionDataset tt [] None None None, [IoU (Finite q)]).
Proof.
  vm_compute. split; [reflexivity|]. split; [reflexivity|]. discriminate.
Qed.

(** C4, amended: the division is not guarded.  When the union-area is zero
    the IoU step raises nothing and yields no number: its value is nan when
    the intersection-area is zero too, and an infinity with the sign of the
    intersection-area otherwise.  A nan IoU passes neither threshold test,
    so that candidate is dropped and the state is unchanged. *)
Theorem zero_union_iou {image label} (self : SimpleSampler image label)
    (lt br : vec) (area : Q) (d : draw) (st : loop_state) :
  let nlt := (candidate_of self d).1 in
  let nbr := (candidate_of self d).2 in
  let area_over := area_over_of lt br nlt nbr in
  rejected self lt br d = false ->
  area_union_of area (nsize_2 self d) area_over == 0 ->
  exists v,
    (iteration self lt br area d st).1.2 = IoU v /\
    (forall q, v <> Finite q) /\
    (area_over == 0 -> v = NaN /\ (iteration self lt br area d st).1.1 = st) /\
    (~ area_over == 0 -> v = Inf (Qltb area_over 0)).
Proof.
  intros nlt nbr area_over Hrej Hzero.
  destruct (fdiv_zero area_over _ Hzero) as (Hnan & Hinf & Hfin).
  exists (iou_of area lt br nlt nbr (nsize_2 self d)).
  unfold rejected in Hrej. unfold iteration. subst nlt nbr area_over.
  destruct (candidate_of self d) as [nlt nbr]. simpl in *. rewrite Hrej. simpl.
  split; [reflexivity|]. split; [exact Hfin|]. split.
  - intros H0. unfold iou_of. rewrite (Hnan H0). simpl. split; reflexivity.
  - intros H0. unfold iou_of. exact (Hinf H0).
Qed.

Lemma zero_union_iou_witness :
  rejected (sampler0 (1, 1)%Z) (mkvec 0 0) (mkvec 0 0) draw_origin = false /\
  exists v,
    (iteration (sampler0 (1, 1)%Z) (mkvec 0 0) (mkvec 0 0) 0 draw_origin
       (mkstate [] (1, 1)%Z)).1.2 = IoU v /\
    forall q, v <> Finite q.
Proof.
  split; [reflexivity|].
  destruct (zero_union_iou (sampler0 (1, 1)%Z) (mkvec 0 0) (mkvec 0 0) 0 draw_origin
              (mkstate [] (1, 1)%Z) eq_refl eq_refl) as (v & Hv & Hfin & _).
  exists v. split; assumption.
Defined.

(** ** Where the candidate size comes from *)

Section Provenance.

Context {image label : Type}.
Variable self : SimpleSampler image label.
Variables lt br : vec.
Variable area : Q.

Lemma add_data_In (is_pos : bool) (nlt nbr : vec) (st : loop_state) (c : candidate) :
  In c (data (add_data is_pos nlt nbr st)) ->
  In c (data st) \/ c = (is_pos, concatenate nlt nbr).
Proof.
  unfold add_data. destruct (_ =? 0)%Z; [tauto|]. simpl.
  rewrite in_app_iff. simpl. intuition.
Qed.

Lemma iteration_In (d : draw) (st : loop_state) (c : candidate) :
  In c (data (iteration self lt br area d st).1.1) ->
  In c (data st) \/ drawn_from self d c.
Proof.
  unfold iteration, drawn_from. destruct (candidate_of self d) as [nlt nbr]. simpl.
  destruct (overlap_test lt br nlt nbr); simpl.
  - intros [H | ->]%add_data_In; auto.
  - destruct (fge _ _); [intros [H| ->]%add_data_In; auto|].
    destruct (flt _ _); [intros [H| ->]%add_data_In; auto|]. auto.
Qed.

Lemma sampling_loop_In (draws : list draw) :
  forall (st st' : loop_state) (evs : list event) (c : candidate),
    sampling_loop self lt br area draws st = Some (st', evs) ->
    In c (data st') ->
    In c (data st) \/ exists d, In d draws /\ drawn_from self d c.
Proof.
  induction draws as [|d ds IH]; intros st st' evs c Hrun Hc; simpl in Hrun.
  - discriminate.
  - pose proof (iteration_In d st c) as Hit.
    destruct (iteration self lt br area d st) as [[st1 ev] exit]; simpl in *.
    destruct exit.
    + injection Hrun as <- <-. destruct (Hit Hc); eauto.
    + destruct (sampling_loop self lt br area ds st1) as [[st2 evs2]|] eqn:E; [|discriminate].
      injection Hrun as <- <-.
      destruct (IH _ _ _ c E Hc) as [H|(d' & Hd' & H)]; [|eauto].
      destruct (Hit H); eauto.
Qed.

End Provenance.

(** C5, as stated, fails: a sampler built on (0,0,10,10) and called on
    (0,0,20,20) forms its candidates with the half-size 5 of the initial
    box, not the half-size 10 of the box of the call; called on either box
    it returns candidates 10 wide. *)
Lemma half_size_ignores_call_box :
  vx (nsize_2 (sampler10 (1, 0)%Z) draw_corner) == 5 /\
  vx (percall_half_size box20 draw_corner) == 10 /\
  ~ vx (nsize_2 (sampler10 (1, 0)%Z) draw_corner)
      == vx (percall_half_size box20 draw_corner) /\
  exists b b',
    SimpleSampler_call (sampler10 (1, 0)%Z) tt box20 [draw_corner]
      = Some (mkRegionDataset tt [(true, b)] None None None) /\
    SimpleSampler_call (sampler10 (1, 0)%Z) tt box10 [draw_same]
      = Some (mkRegionDataset tt [(true, b')] None None None) /\
    max_x b - min_x b == 10 /\ max_x b' - min_x b' == 10.
Proof.
  split; [reflexivity|]. split; [reflexivity|]. split; [discriminate|].
  eexists _, _. split; [vm_compute; reflexivity|].
  split; [vm_compute; reflexivity|]. split; reflexivity.
Qed.

(** C5, amended: the half-size of the candidates is half the size of the
    [init_bbox] given at construction, scaled by the draw; the box passed
    to the call does not enter it.  Every candidate a call returns is the
    box from [nctr - nsize_2] to [nctr + nsize_2] of one of the draws, with
    that half-size; and whatever the reference box, an iteration that
    appends an entry for a draw appends the same box. *)
Theorem candidate_size_from_init_bbox {image label} (init_bbox : bbox)
    (tr : option (image -> image)) (tp tn : option (bbox -> label))
    (n : Z * Z) (th : Q * Q) (sxy : vec) (ss : Q)
    (im : image) (box : bbox) (draws : list draw) (view : RegionDataset image label) :
  let self := SimpleSampler_init image label init_bbox tr tp tn n th sxy ss in
  let half d :=
    vdivs (vscale (vsub (mkvec (max_x init_bbox) (max_y init_bbox))
                        (mkvec (min_x init_bbox) (min_y init_bbox))) (pow_draw d)) 2 in
  SimpleSampler_call self im box draws = Some view ->
  (forall c, In c (crops view) ->
     exists d, In d draws /\
       c.2 = concatenate (vsub (nctr_draw d) (half d)) (vadd (nctr_draw d) (half d))) /\
  (forall lt br area lt' br' area' d c c',
     In c (data (iteration self lt br area d (mkstate [] n)).1.1) ->
     In c' (data (iteration self lt' br' area' d (mkstate [] n)).1.1) ->
     c.2 = c'.2).
Proof.
  intros self half Hcall. split.
  - intros c Hc. unfold SimpleSampler_call, call_trace in Hcall.
    destruct (reshape22 box) as [lt br].
    destruct (sampling_loop _ _ _ _ _ _) as [[st evs]|] eqn:Hloop; [|discriminate].
    injection Hcall as <-. simpl in Hc.
    destruct (sampling_loop_In self lt br _ draws _ _ _ c Hloop Hc) as [[]|(d & Hd & Hfrom)].
    exists d. split; [exact Hd|]. exact Hfrom.
  - intros lt br area lt' br' area' d c c' Hc Hc'.
    destruct (iteration_In self lt br area d _ c Hc) as [[]|Hfrom].
    destruct (iteration_In self lt' br' area' d _ c' Hc') as [[]|Hfrom'].
    unfold drawn_from in *. congruence.
Qed.

Lemma candidate_size_from_init_bbox_witness :
  exists view,
    SimpleSampler_call (sampler10 (1, 0)%Z) tt box20 [draw_corner] = Some view /\
    forall c, In c (crops view) ->
      exists d, In d [draw_corner] /\
        c.2 = concatenate
                (vsub (nctr_draw d)
                   (vdivs (vscale (vsub (mkvec 10 10) (mkvec 0 0)) (pow_draw d)) 2))
                (vadd (nctr_draw d)
                   (vdivs (vscale (vsub (mkvec 10 10) (mkvec 0 0)) (pow_draw d)) 2)).
Proof.
  eexists. split; [vm_compute; reflexivity|].
  exact (proj1 (candidate_size_from_init_bbox box10 None None None (1, 0)%Z (0.7, 0.5)
                  (mkvec 0.3 0.3) 0.5 tt box20 [draw_corner] _ eq_refl)).
Defined.

(** ** Indexed access to a view *)

Lemma list_getitem_in_range {S A} (l : list A) (index : Z) (s : S) :
  (- Z.of_nat (length l) <= index < Z.of_nat (length l))%Z ->
  exists a,
    nth_error l (Z.to_nat (if (index <? 0)%Z then Z.of_nat (length l) + index else index))
      = Some a /\
    list_getitem l index s = (inr a, s).
Proof.
  intros H. unfold list_getitem.
  set (i := if (index <? 0)%Z then (Z.of_nat (length l) + index)%Z else index).
  assert (Hi : (0 <= i < Z.of_nat (length l))%Z).
  { subst i. destruct (Z.ltb_spec index 0); lia. }
  destruct (Z.leb_spec 0 i); [|lia]. destruct (Z.ltb_spec i (Z.of_nat (length l))); [|lia].
  simpl. destruct (nth_error l (Z.to_nat i)) as [a|] eqn:E.
  - exists a. split; reflexivity.
  - apply nth_error_None in E. lia.
Qed.

(** C8: on a view built without transform functions, access at an index in
    range returns the image cropped to the box of that candidate, paired
    with the box itself; the view is left as it was, and a second access
    returns the same result. *)
Theorem getitem_repeatable {image label} (crop : image -> bbox -> image)
    (view : RegionDataset image label) (index : Z) :
  transforms view = None ->
  target_transforms_pos view = None ->
  target_transforms_neg view = None ->
  (- Z.of_nat (RegionDataset_len view) <= index < Z.of_nat (RegionDataset_len view))%Z ->
  exists is_pos bbox,
    nth_error (crops view)
      (Z.to_nat (if (index <? 0)%Z then Z.of_nat (RegionDataset_len view) + index else index))
      = Some (is_pos, bbox) /\
    RegionDataset_getitem crop index view = (inr (crop (img view) bbox, Raw bbox), view) /\
    RegionDataset_getitem crop index (RegionDataset_getitem crop index view).2
      = RegionDataset_getitem crop index view.
Proof.
  intros Ht Hp Hn Hi.
  destruct (list_getitem_in_range (crops view) index view Hi) as ([is_pos bbox] & Hnth & Hget).
  exists is_pos, bbox. split; [exact Hnth|].
  assert (Hcall : RegionDataset_getitem crop index view
                  = (inr (crop (img view) bbox, Raw bbox), view)).
  { unfold RegionDataset_getitem, mbind, Py_bind, reads, mret, Py_ret.
    unfold candidate in *. rewrite Hget, Ht, Hp, Hn. destruct is_pos; reflexivity. }
  split; [exact Hcall|]. rewrite Hcall. simpl. exact Hcall.
Qed.

Lemma getitem_repeatable_witness :
  exists b,
    RegionDataset_getitem (fun (_ : unit) (_ : bbox) => tt) 1
      (mkRegionDataset (label := unit) tt [(true, box10); (false, box20)] None None None)
    = (inr (tt, Raw b),
       mkRegionDataset (label := unit) tt [(true, box10); (false, box20)] None None None)
    /\ b = box20.
Proof.
  destruct (getitem_repeatable (fun (_ : unit) (_ : bbox) => tt)
              (mkRegionDataset (label := unit) tt [(true, box10); (false, box20)]
                 None None None) 1 eq_refl eq_refl eq_refl)
    as (is_pos & b & Hnth & Hcall & _).
  - unfold RegionDataset_len; simpl; lia.
  - exists b. split; [exact Hcall|]. simpl in Hnth. congruence.
Defined.

(** ** Building the sequence index *)

Section FolderProofs.

Context {S : Type}.
Variable folder : string.

Lemma entry_outcome (p : string * item) (s : S) :
  (exists e, entry folder p s = (inr e, s)) \/
  entry folder p s = (inl IndexError, s) \/
  entry folder p s = (inl TypeError, s).
Proof.
  destruct p as [fn [x|r]]; [right; left; reflexivity|].
  unfold entry, getslice, mbind, Py_bind, mret, Py_ret. simpl.
  destruct (slice2 r) as [|x [|y xs]]; simpl; auto.
  destruct (slice2 (tail r)) as [|x' [|y' ys]]; simpl; eauto.
Qed.

Lemma entries_cons (p : string * item) (rest : list (string * item))
    (data : list (string * gtbox)) (s : S) :
  entries folder (p :: rest) data s =
    match entry folder p s with
    | (inl e, s') => (inl e, s')
    | (inr e, s') => entries folder rest (data ++ [e]) s'
    end.
Proof. reflexivity. Qed.

Lemma entries_outcome (pairs : list (string * item)) :
  forall (data : list (string * gtbox)) (s : S),
    (exists out, entries folder pairs data s = (inr out, s)) \/
    entries folder pairs data s = (inl IndexError, s) \/
    entries folder pairs data s = (inl TypeError, s).
Proof.
  induction pairs as [|p rest IH]; intros data s.
  - left. eexists. reflexivity.
  - rewrite entries_cons.
    destruct (entry_outcome p s) as [[e ->]|[-> | ->]]; auto.
Qed.

Lemma slice2_two {A} (r : list A) :
  (3 <= length r)%nat -> exists x y rest, slice2 r = x :: y :: rest.
Proof.
  destruct r as [|a [|b [|c r]]]; simpl; try lia. eauto.
Qed.

Lemma entry_row (fn : string) (r : list fval) (s : S) :
  (4 <= length r)%nat ->
  exists b, entry folder (fn, Row r) s = (inr (join folder fn, b), s).
Proof.
  intros H.
  destruct (slice2_two r) as (x & y & xs & Hx); [lia|].
  destruct (slice2_two (tail r)) as (x' & y' & ys & Hy).
  { destruct r; simpl in *; lia. }
  unfold entry, getslice, mbind, Py_bind, mret, Py_ret. simpl.
  rewrite Hx, Hy. simpl. eexists. reflexivity.
Qed.


End FolderProofs.

(** *** Reading the table *)

Lemma parse_table_error (lines : list (list fval)) (e : error) :
  parse_table lines = inl e <->
  ragged (nonblank lines) = true /\ e = ValueError "Some errors were detected !".
Proof.
  unfold parse_table. destruct (ragged (nonblank lines)); split.
  - intros [= <-]. auto.
  - intros [_ ->]. reflexivity.
  - discriminate.
  - intros [H _]. discriminate.
Qed.

Lemma parse_table_ok (lines : list (list fval)) (table : ndarray) :
  parse_table lines = inr table <->
  ragged (nonblank lines) = false /\ table = squeeze (nonblank lines).
Proof.
  unfold parse_table. destruct (ragged (nonblank lines)); split.
  - discriminate.
  - intros [H _]. discriminate.
  - intros [= <-]. auto.
  - intros [_ ->]. reflexivity.
Qed.


Section Constructor.

Context {image : Type}.
Variable exts : list string.
Variables abspath expanduser : string -> string.
Variable folder : string.
Variable loader : string -> image.
Variable fs : gmap string node.

(** The constructor past its two checks. *)
Lemma Folder_init_checked (names : list string) (lines : list (list fval)) :
  let p := abspath (expanduser folder) in
  fs !! p = Some (Dir names) ->
  fs !! join p "groundtruth.txt" = Some (File lines) ->
  Folder_init exts abspath expanduser folder loader fs =
    match parse_table lines with
    | inl e => (inl e, fs)
    | inr (Arr0 _) => (inl TypeError, fs)
    | inr table =>
        match entries p
                (zip (merge_sort String.le (image_names exts names)) (items_of table))
                [] fs with
        | (inl e, s) => (inl e, s)
        | (inr data, s) => (inr (mkFolder loader data), s)
        end
    end.
Proof.
  intros p Hp Hgt. unfold Folder_init, mbind, Py_bind, reads, raise. fold p.
  unfold isdir. rewrite Hp. simpl. unfold isfile. rewrite Hgt. simpl.
  unfold genfromtxt, listdir. rewrite Hp, Hgt.
  destruct (parse_table lines) as [e|table]; [reflexivity|].
  destruct table as [v|values|rows]; simpl; [reflexivity|..];
    match goal with |- context [entries ?a ?b ?c ?d] =>
      destruct (entries a b c d) as [[e|d'] s] end; reflexivity.
Qed.

Lemma isdir_true (p : string) :
  isdir p fs = true <-> exists names, fs !! p = Some (Dir names).
Proof.
  unfold isdir. destruct (fs !! p) as [[names|lines]|]; split;
    try discriminate; eauto; intros [names' H]; discriminate.
Qed.

Lemma isfile_true (p : string) :
  isfile p fs = true <-> exists lines, fs !! p = Some (File lines).
Proof.
  unfold isfile. destruct (fs !! p) as [[names|lines]|]; split;
    try discriminate; eauto; intros [lines' H]; discriminate.
Qed.

Lemma Folder_init_not_dir :
  let p := abspath (expanduser folder) in
  isdir p fs = false ->
  Folder_init exts abspath expanduser folder loader fs =
    (inl (ValueError ("Not a valid foler: " +:+ p)), fs).
Proof.
  intros p H. unfold Folder_init, mbind, Py_bind, reads, raise. fold p.
  rewrite H. reflexivity.
Qed.

Lemma Folder_init_no_file :
  let p := abspath (expanduser folder) in
  let gt := join p "groundtruth.txt" in
  isdir p fs = true -> isfile gt fs = false ->
  Folder_init exts abspath expanduser folder loader fs =
    (inl (ValueError ("Groundtruth file not found: " +:+ gt)), fs).
Proof.
  intros p gt Hd Hf. unfold Folder_init, mbind, Py_bind, reads, raise. fold p.
  rewrite Hd. simpl. fold gt. rewrite Hf. reflexivity.
Qed.

End Constructor.

(** C7, as stated, fails: the path below exists, is a directory and holds a
    regular file groundtruth.txt, and construction raises a ValueError all
    the same, because the two lines of the file differ in their number of
    values. *)
Lemma ragged_file_raises_ValueError :
  (exists names, fs_ragged !! "/seq" = Some (Dir names)) /\
  (exists lines, fs_ragged !! "/seq/groundtruth.txt" = Some (File lines)) /\
  exists msg,
    Folder_init (image := unit) extensions id id "/seq" (fun _ => tt) fs_ragged
      = (inl (ValueError msg), fs_ragged).
Proof.
  split; [eexists; reflexivity|]. split; [eexists; reflexivity|].
  eexists. vm_compute. reflexivity.
Qed.

(** C7, amended: construction raises a ValueError when the path is absent,
    is not a directory, or has no regular file groundtruth.txt in it: the
    error comes from the two checks that open the constructor, before
    anything is read, and with it no Folder and no entry list exist.  The
    only other ValueError of the constructor is the one genfromtxt raises on
    a groundtruth.txt whose lines differ in their number of values. *)
Theorem Folder_init_ValueError {image} (exts : list string)
    (abspath expanduser : string -> string) (folder : string)
    (loader : string -> image) (fs : gmap string node) :
  let p := abspath (expanduser folder) in
  let gt := join p "groundtruth.txt" in
  let run := Folder_init exts abspath expanduser folder loader fs in
  ((fs !! p = None \/ (exists t, fs !! p = Some (File t)) \/
    (forall t, fs !! gt <> Some (File t)) \/
    (exists names lines,
       fs !! p = Some (Dir names) /\ fs !! gt = Some (File lines) /\
       ragged (nonblank lines) = true))
   <-> exists msg, run.1 = inl (ValueError msg)) /\
  (isdir p fs = false ->
   run = (inl (ValueError ("Not a valid foler: " +:+ p)), fs)) /\
  (isdir p fs = true -> isfile gt fs = false ->
   run = (inl (ValueError ("Groundtruth file not found: " +:+ gt)), fs)).
Proof.
  intros p gt run. subst run.
  split; [|split;
    [apply Folder_init_not_dir|apply Folder_init_no_file]].
  destruct (isdir p fs) eqn:Ed.
  - apply isdir_true in Ed. destruct Ed as [names Hp].
    destruct (isfile gt fs) eqn:Ef.
    + apply isfile_true in Ef. destruct Ef as [lines Hgt].
      rewrite (Folder_init_checked exts abspath expanduser folder loader fs
                 names lines Hp Hgt).
      destruct (parse_table lines) as [e|table] eqn:Hparse.
      * apply parse_table_error in Hparse. destruct Hparse as [Hr ->]. split.
        -- intros _. eexists. reflexivity.
        -- intros _. right. right. right. exists names, lines. auto.
      * apply parse_table_ok in Hparse. destruct Hparse as [Hr _]. split.
        -- intros [H|[[t H]|[H|(names' & lines' & _ & H & Hr')]]].
           ++ fold p in Hp. congruence.
           ++ fold p in Hp. congruence.
           ++ exfalso. exact (H lines Hgt).
           ++ fold gt in Hgt. congruence.
        -- intros [msg Hmsg]. exfalso.
           destruct table as [v|values|rows]; simpl in Hmsg; [discriminate|..];
             match type of Hmsg with context [entries ?a ?b ?c ?d] =>
               destruct (entries_outcome a b c d) as [[out E]|[E|E]];
               rewrite E in Hmsg; simpl in Hmsg; discriminate
             end.
    + rewrite (Folder_init_no_file exts abspath expanduser folder loader fs)
        by (try apply isdir_true; eauto). split.
      * intros _. eexists. reflexivity.
      * intros _. right. right. left. intros t Ht.
        assert (isfile gt fs = true) by (apply isfile_true; eauto). congruence.
  - rewrite (Folder_init_not_dir exts abspath expanduser folder loader fs Ed). split.
    + intros _. eexists. reflexivity.
    + intros _. fold p. destruct (fs !! p) as [[names|t]|] eqn:Hp; [|eauto|auto].
      assert (isdir p fs = true) by (apply isdir_true; eauto). congruence.
Qed.

Lemma Folder_init_ValueError_witness :
  fs_empty !! "/seq" = None /\
  exists msg,
    (Folder_init (image := unit) extensions id id "/seq" (fun _ => tt) fs_empty).1
      = inl (ValueError msg).
Proof.
  split; [reflexivity|].
  apply (proj1 (Folder_init_ValueError (image := unit) extensions id id "/seq"
                  (fun _ => tt) fs_empty)).
  left. reflexivity.
Defined.




(** * Further properties *)

(** ** The loop as a whole *)

Section WholeLoop.

Context {image label : Type}.
Variable self : SimpleSampler image label.
Variables lt br : vec.
Variable area : Q.

Lemma iteration_state (d : draw) (st : loop_state) :
  (iteration self lt br area d st).1.1 =
    match earned self lt br area d with
    | Some b => add_data b (candidate_of self d).1 (candidate_of self d).2 st
    | None => st
    end.
Proof.
  unfold iteration, earned. destruct (candidate_of self d) as [nlt nbr]. simpl.
  destruct (overlap_test lt br nlt nbr); [reflexivity|]. simpl.
  destruct (fge _ _); [reflexivity|]. destruct (flt _ _); reflexivity.
Qed.

Lemma iteration_flag (d : draw) (st : loop_state) :
  (iteration self lt br area d st).2 = true ->
  all_zero (remain (iteration self lt br area d st).1.1) = true.
Proof. apply iteration_exit. Qed.

(** [add_data] appends the entry or nothing. *)
Lemma add_data_data (is_pos : bool) (nlt nbr : vec) (st : loop_state) :
  data (add_data is_pos nlt nbr st) = data st \/
  data (add_data is_pos nlt nbr st) = data st ++ [(is_pos, concatenate nlt nbr)].
Proof.
  unfold add_data. destruct (_ =? 0)%Z; [left; reflexivity|right; reflexivity].
Qed.

Lemma iteration_data (d : draw) (st : loop_state) :
  exists l,
    data (iteration self lt br area d st).1.1 = data st ++ l /\
    l `sublist_of` option_list (offered self lt br area d).
Proof.
  rewrite iteration_state. unfold offered.
  destruct (earned self lt br area d) as [b|]; cbn -[add_data].
  - destruct (add_data_data b (vsub (nctr_draw d) (nsize_2 self d))
                (vadd (nctr_draw d) (nsize_2 self d)) st) as [-> | ->].
    + exists []. rewrite app_nil_r. split; [reflexivity|apply sublist_nil_l].
    + eexists. split; reflexivity.
  - exists []. rewrite app_nil_r. split; [reflexivity|constructor].
Qed.

Lemma sampling_loop_data (draws : list draw) :
  forall (st st' : loop_state) (evs : list event),
    sampling_loop self lt br area draws st = Some (st', evs) ->
    exists l,
      data st' = data st ++ l /\
      l `sublist_of` omap (offered self lt br area) draws /\
      (length l <= length evs)%nat.
Proof.
  induction draws as [|d ds IH]; intros st st' evs Hrun; simpl in Hrun.
  - discriminate.
  - destruct (iteration_data d st) as (l1 & Hl1 & Hsub1).
    assert (Hlen1 : (length l1 <= 1)%nat).
    { apply sublist_length in Hsub1.
      destruct (offered self lt br area d); simpl in Hsub1; lia. }
    assert (Hcons : omap (offered self lt br area) (d :: ds)
                    = option_list (offered self lt br area d)
                      ++ omap (offered self lt br area) ds).
    { simpl. destruct (offered self lt br area d); reflexivity. }
    rewrite Hcons.
    destruct (iteration self lt br area d st) as [[st1 ev] exit]; simpl in *.
    destruct exit.
    + injection Hrun as <- <-. exists l1. split; [exact Hl1|]. split.
      * rewrite <- (app_nil_r l1). apply sublist_app; [exact Hsub1|apply sublist_nil_l].
      * simpl. exact Hlen1.
    + destruct (sampling_loop self lt br area ds st1) as [[st2 evs2]|] eqn:E; [|discriminate].
      injection Hrun as <- <-.
      destruct (IH _ _ _ E) as (l2 & Hl2 & Hsub2 & Hlen2).
      exists (l1 ++ l2). split; [rewrite Hl2, Hl1, app_assoc; reflexivity|]. split.
      * apply sublist_app; assumption.
      * rewrite length_app. simpl. lia.
Qed.

(** A draw that earns no flag [b] leaves the counter of [b] as it is. *)
Lemma iteration_quota (b : bool) (d : draw) (st : loop_state) :
  earned self lt br area d <> Some b ->
  quota b (remain (iteration self lt br area d st).1.1) = quota b (remain st).
Proof.
  intros H. rewrite iteration_state.
  destruct (earned self lt br area d) as [b'|]; [|reflexivity].
  assert (b' <> b) by congruence.
  unfold add_data. destruct b', b; try congruence; simpl;
    destruct (_ =? 0)%Z; reflexivity.
Qed.

Lemma quota_all_zero (b : bool) (r : Z * Z) :
  quota b r <> 0%Z -> all_zero r = false.
Proof.
  destruct r as [p n]. unfold quota, all_zero. simpl.
  destruct b; intros H.
  - apply Z.eqb_neq in H. rewrite H. reflexivity.
  - apply Z.eqb_neq in H. rewrite H. apply andb_false_r.
Qed.

Lemma sampling_loop_starved (b : bool) (draws : list draw) :
  Forall (fun d => earned self lt br area d <> Some b) draws ->
  forall st, quota b (remain st) <> 0%Z ->
             sampling_loop self lt br area draws st = None.
Proof.
  induction 1 as [|d ds Hd _ IH]; intros st Hst; [reflexivity|].
  simpl. pose proof (iteration_quota b d st Hd) as Hq.
  pose proof (iteration_flag d st) as Hexit.
  destruct (iteration self lt br area d st) as [[st1 ev] exit]; simpl in *.
  assert (Hst1 : quota b (remain st1) <> 0%Z) by (rewrite Hq; exact Hst).
  destruct exit.
  - rewrite (quota_all_zero b _ Hst1) in Hexit. discriminate (Hexit eq_refl).
  - rewrite (IH st1 Hst1). reflexivity.
Qed.

(** Draws offered after the [break] are not looked at. *)
Lemma sampling_loop_app (draws more : list draw) :
  forall (st : loop_state) (r : loop_state * list event),
    sampling_loop self lt br area draws st = Some r ->
    sampling_loop self lt br area (draws ++ more) st = Some r.
Proof.
  induction draws as [|d ds IH]; intros st r Hrun; simpl in *; [discriminate|].
  destruct (iteration self lt br area d st) as [[st1 ev] exit].
  destruct exit; [exact Hrun|].
  destruct (sampling_loop self lt br area ds st1) as [[st2 evs2]|] eqn:E; [|discriminate].
  rewrite (IH st1 _ E). exact Hrun.
Qed.

Lemma sampling_loop_take (draws : list draw) :
  forall (st st' : loop_state) (evs : list event),
    sampling_loop self lt br area draws st = Some (st', evs) ->
    sampling_loop self lt br area (take (length evs) draws) st = Some (st', evs).
Proof.
  induction draws as [|d ds IH]; intros st st' evs Hrun; simpl in *; [discriminate|].
  destruct (iteration self lt br area d st) as [[st1 ev] exit] eqn:Hit.
  destruct exit.
  - injection Hrun as <- <-. simpl. rewrite Hit. reflexivity.
  - destruct (sampling_loop self lt br area ds st1) as [[st2 evs2]|] eqn:E; [|discriminate].
    injection Hrun as <- <-. simpl. rewrite Hit, (IH _ _ _ E). reflexivity.
Qed.

End WholeLoop.

(** X1: the candidates a call returns are, in the order of the draws, entries
    that the draws offered: the returned list is a sublist of the list of
    offers. *)
Theorem returned_in_draw_order {image label} (self : SimpleSampler image label)
    (im : image) (box : bbox) (draws : list draw)
    (view : RegionDataset image label) (evs : list event) :
  call_trace self im box draws = Some (view, evs) ->
  let '(lt, br) := reshape22 box in
  crops view `sublist_of`
    omap (offered self lt br (prod0 (mean (vsub br lt)))) draws.
Proof.
  unfold call_trace. destruct (reshape22 box) as [lt br].
  destruct (sampling_loop _ _ _ _ _ _) as [[st evs']|] eqn:Hloop; [|discriminate].
  intros [= <- <-]. simpl.
  destruct (sampling_loop_data self lt br _ draws _ _ _ Hloop) as (l & Hl & Hsub & _).
  simpl in Hl. rewrite Hl. exact Hsub.
Qed.

Lemma returned_in_draw_order_witness :
  exists view evs,
    call_trace (sampler10 (1, 1)%Z) tt box10 [draw_far; draw_corner; draw_same]
      = Some (view, evs) /\
    crops view `sublist_of`
      omap (offered (sampler10 (1, 1)%Z) (mkvec 0 0) (mkvec 10 10)
              (prod0 (mean (vsub (mkvec 10 10) (mkvec 0 0)))))
        [draw_far; draw_corner; draw_same].
Proof.
  eexists _, _. split; [vm_compute; reflexivity|].
  exact (returned_in_draw_order (sampler10 (1, 1)%Z) tt box10
           [draw_far; draw_corner; draw_same] _ _ eq_refl).
Defined.

(** X2: every returned candidate carries the flag its draw earned.  A
    positive is the candidate of a draw that passed the overlap test with
    an IoU of at least [thres_pos]; a negative is the candidate of a draw
    that failed the overlap test, or whose IoU is below both thresholds. *)
Theorem returned_flags_earned {image label} (self : SimpleSampler image label)
    (im : image) (box : bbox) (draws : list draw)
    (view : RegionDataset image label) (evs : list event) (c : candidate) :
  call_trace self im box draws = Some (view, evs) ->
  In c (crops view) ->
  let '(lt, br) := reshape22 box in
  let area := prod0 (mean (vsub br lt)) in
  exists d,
    In d draws /\
    c.2 = concatenate (candidate_of self d).1 (candidate_of self d).2 /\
    let iou := iou_of area lt br (candidate_of self d).1 (candidate_of self d).2
                 (nsize_2 self d) in
    if c.1 then rejected self lt br d = false /\ fge iou (thres_pos self) = true
    else rejected self lt br d = true \/
         (fge iou (thres_pos self) = false /\ flt iou (thres_neg self) = true).
Proof.
  unfold call_trace. destruct (reshape22 box) as [lt br].
  destruct (sampling_loop _ _ _ _ _ _) as [[st evs']|] eqn:Hloop; [|discriminate].
  intros [= <- <-] Hc. simpl in Hc.
  destruct (sampling_loop_data self lt br _ draws _ _ _ Hloop) as (l & Hl & Hsub & _).
  simpl in Hl. rewrite Hl in Hc. apply list_elem_of_In in Hc.
  apply (sublist_subseteq _ _ Hsub) in Hc.
  apply list_elem_of_omap in Hc. destruct Hc as (d & Hd & Hoff).
  exists d. split; [apply list_elem_of_In; exact Hd|].
  unfold offered, earned, rejected in *.
  destruct (candidate_of self d) as [nlt nbr]. simpl in *.
  destruct (overlap_test lt br nlt nbr).
  - injection Hoff as <-. simpl. auto.
  - destruct (fge _ _) eqn:Hge.
    + injection Hoff as <-. simpl. auto.
    + destruct (flt _ _) eqn:Hlt; [|discriminate].
      injection Hoff as <-. simpl. auto.
Qed.

Lemma returned_flags_earned_witness :
  exists d,
    In d [draw_far; draw_corner; draw_same] /\
    rejected (sampler10 (1, 1)%Z) (mkvec 0 0) (mkvec 10 10) d = true.
Proof.
  destruct (returned_flags_earned (sampler10 (1, 1)%Z) tt box10
              [draw_far; draw_corner; draw_same] _ _
              (false, concatenate (candidate_of (sampler10 (1, 1)%Z) draw_far).1
                        (candidate_of (sampler10 (1, 1)%Z) draw_far).2)
              eq_refl (or_introl eq_refl)) as (d & Hd & _ & [H|[H _]]).
  - exists d. split; assumption.
  - exists draw_far. split; [left; reflexivity|reflexivity].
Defined.

(** X3: a call that returns has run at least one iteration for each
    candidate it returns, and no more iterations than it was given draws;
    with valid quotas it needs at least [num_pos + num_neg] draws. *)
Theorem draws_needed {image label} (self : SimpleSampler image label)
    (im : image) (box : bbox) (draws : list draw)
    (view : RegionDataset image label) (evs : list event) :
  call_trace self im box draws = Some (view, evs) ->
  (length (crops view) <= length evs <= length draws)%nat /\
  (valid_num (num self) ->
   (fst (num self) + snd (num self) <= Z.of_nat (length draws))%Z).
Proof.
  unfold call_trace. destruct (reshape22 box) as [lt br].
  destruct (sampling_loop _ _ _ _ _ _) as [[st evs']|] eqn:Hloop; [|discriminate].
  intros [= <- <-]. simpl.
  destruct (sampling_loop_data self lt br _ draws _ _ _ Hloop) as (l & Hl & _ & Hlen).
  simpl in Hl. subst l.
  assert (Hevs : (length evs' <= length draws)%nat).
  { clear Hlen. revert st evs' Hloop. generalize (mkstate [] (num self)).
    induction draws as [|d ds IH]; intros s0 st evs' Hrun; simpl in Hrun; [discriminate|].
    destruct (iteration self lt br _ d s0) as [[st1 ev] exit]. destruct exit.
    - injection Hrun as <- <-. simpl. lia.
    - destruct (sampling_loop self lt br _ ds st1) as [[st2 evs2]|] eqn:E; [|discriminate].
      injection Hrun as <- <-. simpl. specialize (IH _ _ _ E). lia. }
  split; [lia|]. intros Hn.
  assert (Hinit : quota_inv (num self) (mkstate [] (num self))).
  { destruct Hn as [Hp Hq]. unfold quota_inv; simpl. repeat split; lia. }
  destruct (sampling_loop_inv self lt br _ (num self) draws Hn _ _ _ Hinit Hloop)
    as ((_ & _ & Hpos & Hneg) & Hzero & _).
  apply all_zero_eq in Hzero. rewrite Hzero in Hpos, Hneg. simpl in Hpos, Hneg.
  pose proof (count_pos_neg_length (data st)). lia.
Qed.

Lemma draws_needed_witness :
  exists view evs,
    call_trace (sampler10 (1, 1)%Z) tt box10 [draw_far; draw_corner; draw_same]
      = Some (view, evs) /\
    (length (crops view) <= length evs <= 3)%nat.
Proof.
  eexists _, _. split; [vm_compute; reflexivity|].
  exact (proj1 (draws_needed (sampler10 (1, 1)%Z) tt box10
                  [draw_far; draw_corner; draw_same] _ _ eq_refl)).
Defined.

(** X4: a quota that is not zero is filled only by draws that earn its
    flag.  While no draw earns the flag of a quota that is not zero, the
    call has not returned, however many draws it is given. *)
Theorem starved_quota_never_returns {image label} (self : SimpleSampler image label)
    (im : image) (box : bbox) (draws : list draw) (is_pos : bool) :
  quota is_pos (num self) <> 0%Z ->
  (let '(lt, br) := reshape22 box in
   Forall (fun d => earned self lt br (prod0 (mean (vsub br lt))) d <> Some is_pos) draws) ->
  call_trace self im box draws = None.
Proof.
  intros Hq. unfold call_trace. destruct (reshape22 box) as [lt br]. intros Hall.
  rewrite (sampling_loop_starved self lt br _ is_pos draws Hall); [reflexivity|exact Hq].
Qed.

Lemma starved_quota_never_returns_witness :
  call_trace (sampler10 (1, 1)%Z) tt box10 [draw_far; draw_corner; draw_far] = None.
Proof.
  apply (starved_quota_never_returns (sampler10 (1, 1)%Z) tt box10
           [draw_far; draw_corner; draw_far] true).
  - simpl. discriminate.
  - simpl. repeat constructor; vm_compute; discriminate.
Defined.

(** X5: what a call returns is fixed by the draws of the iterations it ran;
    the draws that come after the [break] are never looked at. *)
Theorem later_draws_ignored {image label} (self : SimpleSampler image label)
    (im : image) (box : bbox) (draws more : list draw)
    (view : RegionDataset image label) (evs : list event) :
  call_trace self im box draws = Some (view, evs) ->
  call_trace self im box (take (length evs) draws ++ more) = Some (view, evs).
Proof.
  unfold call_trace. destruct (reshape22 box) as [lt br].
  destruct (sampling_loop _ _ _ _ draws _) as [[st evs']|] eqn:Hloop; [|discriminate].
  intros [= <- <-].
  apply sampling_loop_take in Hloop.
  rewrite (sampling_loop_app self lt br _ _ more _ _ Hloop). reflexivity.
Qed.

Lemma later_draws_ignored_witness :
  exists view evs,
    call_trace (sampler10 (0, 1)%Z) tt box10 [draw_far; draw_corner] = Some (view, evs) /\
    call_trace (sampler10 (0, 1)%Z) tt box10
      (take (length evs) [draw_far; draw_corner] ++ [draw_same; draw_same])
    = Some (view, evs).
Proof.
  eexists _, _. split; [vm_compute; reflexivity|].
  exact (later_draws_ignored (sampler10 (0, 1)%Z) tt box10 [draw_far; draw_corner]
           [draw_same; draw_same] _ _ eq_refl).
Defined.

(** ** The intersection of boxes that pass the overlap test *)

Lemma Qltb_ge (a b : Q) : Qltb a b = false <-> b <= a.
Proof.
  unfold Qltb. rewrite negb_false_iff. apply Qle_bool_iff.
Qed.

Lemma overlap_test_passed (lt br nlt nbr : vec) :
  overlap_test lt br nlt nbr = false ->
  vx nlt <= vx br /\ vy nlt <= vy br /\ vx lt <= vx nbr /\ vy lt <= vy nbr.
Proof.
  unfold overlap_test, any_lt, any_gt.
  rewrite !orb_false_iff, !Qltb_ge. tauto.
Qed.

(** One side of the intersection is not negative. *)
Lemma side_bounds (l r nl nr : Q) :
  l <= r -> nl <= nr -> nl <= r -> l <= nr ->
  0 <= Qmin r nr - Qmax l nl.
Proof.
  intros H1 H2 H3 H4.
  assert (Qmax l nl <= Qmin r nr).
  { apply Q.max_lub; apply Q.min_glb; assumption. }
  lra.
Qed.

Lemma candidate_well_formed {image label} (self : SimpleSampler image label) (d : draw) :
  0 <= vx (isize self) -> 0 <= vy (isize self) -> 0 <= pow_draw d ->
  0 <= vx (nsize_2 self d) /\ 0 <= vy (nsize_2 self d) /\
  well_formed (candidate_of self d).1 (candidate_of self d).2.
Proof.
  intros Hx Hy Hp.
  assert (Hnx : 0 <= vx (nsize_2 self d)).
  { unfold nsize_2; simpl. apply Qle_shift_div_l; [reflexivity|].
    rewrite Qmult_0_l. apply Qmult_le_0_compat; assumption. }
  assert (Hny : 0 <= vy (nsize_2 self d)).
  { unfold nsize_2; simpl. apply Qle_shift_div_l; [reflexivity|].
    rewrite Qmult_0_l. apply Qmult_le_0_compat; assumption. }
  split; [exact Hnx|]. split; [exact Hny|].
  unfold well_formed, candidate_of. cbn -[nsize_2]. repeat split; lra.
Qed.

(** X6: when a candidate passes the overlap test, against a reference box
    with [lt <= br] and with a non-negative initial size and scale factor,
    both sides of the intersection box are non-negative and the
    intersection-area of the loop is the geometric overlap of the two
    boxes. *)
Theorem area_over_is_overlap {image label} (self : SimpleSampler image label)
    (lt br : vec) (d : draw) :
  rejected self lt br d = false ->
  well_formed lt br ->
  0 <= vx (isize self) -> 0 <= vy (isize self) -> 0 <= pow_draw d ->
  let nlt := (candidate_of self d).1 in
  let nbr := (candidate_of self d).2 in
  0 <= vx (vsub (minimum br nbr) (maximum lt nlt)) /\
  0 <= vy (vsub (minimum br nbr) (maximum lt nlt)) /\
  0 <= area_over_of lt br nlt nbr /\
  area_over_of lt br nlt nbr == overlap_area lt br nlt nbr.
Proof.
  intros Hrej [Hx Hy] Hix Hiy Hp nlt nbr.
  destruct (candidate_well_formed self d Hix Hiy Hp) as (_ & _ & [Hcx Hcy]).
  unfold rejected in Hrej. subst nlt nbr.
  destruct (candidate_of self d) as [nlt nbr]. simpl in *.
  apply overlap_test_passed in Hrej. destruct Hrej as (H1 & H2 & H3 & H4).
  pose proof (side_bounds _ _ _ _ Hx Hcx H1 H3) as Hsx.
  pose proof (side_bounds _ _ _ _ Hy Hcy H2 H4) as Hsy.
  unfold area_over_of, overlap_area, prod. simpl.
  split; [exact Hsx|]. split; [exact Hsy|]. split.
  - apply Qmult_le_0_compat; assumption.
  - rewrite (Q.max_r _ _ Hsx), (Q.max_r _ _ Hsy). reflexivity.
Qed.

Lemma area_over_is_overlap_witness :
  area_over_of (mkvec 0 0) (mkvec 10 10)
    (candidate_of (sampler10 (1, 1)%Z) draw_corner).1
    (candidate_of (sampler10 (1, 1)%Z) draw_corner).2
  == overlap_area (mkvec 0 0) (mkvec 10 10)
       (candidate_of (sampler10 (1, 1)%Z) draw_corner).1
       (candidate_of (sampler10 (1, 1)%Z) draw_corner).2.
Proof.
  apply (area_over_is_overlap (sampler10 (1, 1)%Z) (mkvec 0 0) (mkvec 10 10) draw_corner).
  - reflexivity.
  - split; vm_compute; discriminate.
  - vm_compute; discriminate.
  - vm_compute; discriminate.
  - vm_compute; discriminate.
Defined.

(** ** Indexed access, in and out of range *)

Lemma list_getitem_position {S A} (l : list A) (index : Z) (s : S) :
  (- Z.of_nat (length l) <= index < Z.of_nat (length l))%Z ->
  exists a,
    nth_error l (position (length l) index) = Some a /\
    list_getitem l index s = (inr a, s).
Proof. apply list_getitem_in_range. Qed.

Lemma list_getitem_out_of_range {S A} (l : list A) (index : Z) (s : S) :
  (index < - Z.of_nat (length l) \/ Z.of_nat (length l) <= index)%Z ->
  list_getitem l index s = (inl IndexError, s).
Proof.
  intros H. unfold list_getitem.
  set (i := if (index <? 0)%Z then (Z.of_nat (length l) + index)%Z else index).
  assert (Hi : (i < 0 \/ Z.of_nat (length l) <= i)%Z).
  { subst i. destruct (Z.ltb_spec index 0); lia. }
  destruct (Z.leb_spec 0 i); [|reflexivity].
  destruct (Z.ltb_spec i (Z.of_nat (length l))); [lia|reflexivity].
Qed.

(** X8: access at an index in range, counted from the end when negative,
    returns the crop of the image to the box of that candidate, passed
    through the pixel transform when there is one, with the label made by
    the transform of the candidate's own class; a positive never goes
    through [target_transforms_neg], nor a negative through
    [target_transforms_pos].  The view is left unchanged. *)
Theorem view_access_in_range {image label} (crop : image -> bbox -> image)
    (view : RegionDataset image label) (index : Z) :
  (- Z.of_nat (RegionDataset_len view) <= index < Z.of_nat (RegionDataset_len view))%Z ->
  exists c,
    nth_error (crops view) (position (RegionDataset_len view) index) = Some c /\
    RegionDataset_getitem crop index view =
      (inr (apply_transform (transforms view) (crop (img view) c.2),
            label_of (target_transforms_pos view) (target_transforms_neg view) c),
       view).
Proof.
  intros Hi.
  destruct (list_getitem_position (crops view) index view Hi) as ([is_pos b] & Hnth & Hget).
  exists (is_pos, b). split; [exact Hnth|].
  unfold RegionDataset_getitem, mbind, Py_bind, reads, mret, Py_ret.
  unfold candidate in *. rewrite Hget. unfold apply_transform, label_of. simpl.
  destruct is_pos, (target_transforms_pos view), (target_transforms_neg view); reflexivity.
Qed.

Lemma view_access_in_range_witness :
  RegionDataset_getitem (fun (_ : unit) (b : bbox) => tt) (-1)
    (mkRegionDataset tt [(true, box10); (false, box20)] None
       (Some (fun b => max_x b)) None)
  = (inr (tt, Raw box20),
     mkRegionDataset tt [(true, box10); (false, box20)] None
       (Some (fun b => max_x b)) None).
Proof.
  destruct (view_access_in_range (fun (_ : unit) (b : bbox) => tt)
              (mkRegionDataset tt [(true, box10); (false, box20)] None
                 (Some (fun b => max_x b)) None) (-1)) as (c & Hc & Hget).
  - unfold RegionDataset_len; simpl; lia.
  - injection Hc as <-. exact Hget.
Defined.

(** X9: access at an index outside [-len, len) raises IndexError, with or
    without transforms, and leaves the view unchanged. *)
Theorem view_access_out_of_range {image label} (crop : image -> bbox -> image)
    (view : RegionDataset image label) (index : Z) :
  (index < - Z.of_nat (RegionDataset_len view) \/
   Z.of_nat (RegionDataset_len view) <= index)%Z ->
  RegionDataset_getitem crop index view = (inl IndexError, view).
Proof.
  intros Hi.
  pose proof (list_getitem_out_of_range (crops view) index view Hi) as Hget.
  unfold RegionDataset_getitem, mbind, Py_bind, reads.
  unfold candidate in *. rewrite Hget. reflexivity.
Qed.

Lemma view_access_out_of_range_witness :
  RegionDataset_getitem (fun (_ : unit) (b : bbox) => tt) 2
    (mkRegionDataset (label := unit) tt [(true, box10); (false, box20)] None None None)
  = (inl IndexError,
     mkRegionDataset (label := unit) tt [(true, box10); (false, box20)] None None None).
Proof.
  apply (view_access_out_of_range (fun (_ : unit) (b : bbox) => tt)
           (mkRegionDataset (label := unit) tt [(true, box10); (false, box20)]
              None None None) 2).
  right. unfold RegionDataset_len; simpl; lia.
Defined.

(** X10: on a view returned by a call with valid quotas, exactly the
    indices from [-(num_pos + num_neg)] to [num_pos + num_neg - 1] can be
    accessed; every other index raises IndexError. *)
Theorem sampled_view_indices {image label} (crop : image -> bbox -> image)
    (self : SimpleSampler image label) (im : image) (box : bbox)
    (draws : list draw) (view : RegionDataset image label) (index : Z) :
  valid_num (num self) ->
  SimpleSampler_call self im box draws = Some view ->
  let n := (fst (num self) + snd (num self))%Z in
  ((- n <= index < n)%Z ->
   exists r, RegionDataset_getitem crop index view = (inr r, view)) /\
  ((index < - n \/ n <= index)%Z ->
   RegionDataset_getitem crop index view = (inl IndexError, view)).
Proof.
  intros Hn Hcall n.
  assert (Hlen : Z.of_nat (RegionDataset_len view) = n).
  { unfold SimpleSampler_call, call_trace in Hcall.
    destruct (reshape22 box) as [lt br].
    destruct (sampling_loop _ _ _ _ _ _) as [[st evs]|] eqn:Hloop; [|discriminate].
    injection Hcall as <-. unfold RegionDataset_len. simpl.
    assert (Hinit : quota_inv (num self) (mkstate [] (num self))).
    { destruct Hn as [Hp Hq]. unfold quota_inv; simpl. repeat split; lia. }
    destruct (sampling_loop_inv self lt br _ (num self) draws Hn _ _ _ Hinit Hloop)
      as ((_ & _ & Hpos & Hneg) & Hzero & _).
    apply all_zero_eq in Hzero. rewrite Hzero in Hpos, Hneg. simpl in Hpos, Hneg.
    pose proof (count_pos_neg_length (data st)). subst n. lia. }
  unfold RegionDataset_len in Hlen.
  split; intros Hi.
  - destruct (list_getitem_position (crops view) index view) as ([is_pos b] & _ & Hget);
      [lia|].
    unfold RegionDataset_getitem, mbind, Py_bind, reads, mret, Py_ret.
    unfold candidate in *. rewrite Hget. eexists. reflexivity.
  - assert (Hget : list_getitem (crops view) index view = (inl IndexError, view))
      by (apply list_getitem_out_of_range; lia).
    unfold RegionDataset_getitem, mbind, Py_bind, reads.
    unfold candidate in *. rewrite Hget. reflexivity.
Qed.

Lemma sampled_view_indices_witness :
  exists view r,
    SimpleSampler_call (sampler10 (1, 1)%Z) tt box10 [draw_corner; draw_same] = Some view /\
    RegionDataset_getitem (fun (_ : unit) (b : bbox) => tt) (-2) view = (inr r, view) /\
    RegionDataset_getitem (fun (_ : unit) (b : bbox) => tt) 2 view = (inl IndexError, view).
Proof.
  assert (Hn : valid_num (num (sampler10 (1, 1)%Z))).
  { unfold valid_num; simpl; lia. }
  eexists.
  pose proof (fun index =>
    sampled_view_indices (fun (_ : unit) (b : bbox) => tt) (sampler10 (1, 1)%Z) tt box10
      [draw_corner; draw_same] _ index Hn eq_refl) as H.
  destruct (proj1 (H (-2)%Z)) as [r Hr]; [simpl; lia|].
  exists r. split; [reflexivity|]. split; [exact Hr|].
  apply (proj2 (H 2%Z)). simpl; lia.
Defined.

(** ** Records and their boxes *)

Lemma slice2_lookup {A} (r : list A) (k : nat) : slice2 r !! k = r !! (2 * k)%nat.
Proof.
  revert r. induction k as [|k IH]; intros r.
  - destruct r; reflexivity.
  - replace (2 * S k)%nat with (S (S (2 * k))) by lia.
    destruct r as [|x [|y l]]; simpl; [reflexivity..|]. apply IH.
Qed.

Lemma slice2_tail_lookup {A} (r : list A) (k : nat) :
  slice2 (tail r) !! k = r !! (2 * k + 1)%nat.
Proof.
  rewrite slice2_lookup. replace (2 * k + 1)%nat with (S (2 * k)) by lia.
  destruct r as [|x l]; reflexivity.
Qed.

Lemma slice2_fmap {A B} (f : A -> B) (l : list A) :
  slice2 (f <$> l) = f <$> slice2 l.
Proof.
  revert l. fix IH 1. intros [|x [|y l]]; [reflexivity..|].
  simpl. f_equal. apply IH.
Qed.

Lemma Qmin_cases (x y : Q) : Qmin x y = x \/ Qmin x y = y.
Proof.
  unfold Qmin, GenericMinMax.gmin. destruct (x ?= y); auto.
Qed.

Lemma Qmax_cases (x y : Q) : Qmax x y = x \/ Qmax x y = y.
Proof.
  unfold Qmax, GenericMinMax.gmax. destruct (x ?= y); auto.
Qed.

(** On numbers, the steps of [min] and [max] are [Qmin] and [Qmax]. *)
Lemma min_step (c y : Q) :
  (if fval_ltb (Finite y) (Finite c) then Finite y else Finite c) = Finite (Qmin c y).
Proof.
  cbn [fval_ltb]. unfold Qmin, GenericMinMax.gmin.
  destruct (Qcompare_spec c y) as [H|H|H]; destruct (Qltb y c) eqn:E;
    try reflexivity; exfalso;
    first [apply Qltb_lt in E|apply Qltb_ge in E]; lra.
Qed.

Lemma max_step (c y : Q) :
  (if fval_ltb (Finite c) (Finite y) then Finite y else Finite c) = Finite (Qmax c y).
Proof.
  cbn [fval_ltb]. unfold Qmax, GenericMinMax.gmax.
  destruct (Qcompare_spec c y) as [H|H|H]; destruct (Qltb c y) eqn:E;
    try reflexivity; exfalso;
    first [apply Qltb_lt in E|apply Qltb_ge in E]; lra.
Qed.

Lemma fold_min_numbers (l : list Q) :
  forall x,
    fold_left (fun cur v => if fval_ltb v cur then v else cur) (Finite <$> l) (Finite x)
    = Finite (fold_left Qmin l x).
Proof.
  induction l as [|y l IH]; intros x; [reflexivity|].
  cbn [fmap list_fmap fold_left]. rewrite min_step. apply IH.
Qed.

Lemma fold_max_numbers (l : list Q) :
  forall x,
    fold_left (fun cur v => if fval_ltb cur v then v else cur) (Finite <$> l) (Finite x)
    = Finite (fold_left Qmax l x).
Proof.
  induction l as [|y l IH]; intros x; [reflexivity|].
  cbn [fmap list_fmap fold_left]. rewrite max_step. apply IH.
Qed.

Lemma fold_min_spec (l : list Q) :
  forall x,
    (fold_left Qmin l x = x \/ In (fold_left Qmin l x) l) /\
    fold_left Qmin l x <= x /\
    (forall a, In a l -> fold_left Qmin l x <= a).
Proof.
  induction l as [|a l IH]; intros x; simpl.
  - split; [auto|]. split; [apply Qle_refl|]. intros a [].
  - destruct (IH (Qmin x a)) as (Hin & Hle & Hall).
    pose proof (Q.le_min_l x a). pose proof (Q.le_min_r x a).
    split; [|split].
    + destruct Hin as [->|Hin]; [|auto]. destruct (Qmin_cases x a) as [->| ->]; auto.
    + eapply Qle_trans; eassumption.
    + intros b [<-|Hb]; [eapply Qle_trans; eassumption|auto].
Qed.

Lemma fold_max_spec (l : list Q) :
  forall x,
    (fold_left Qmax l x = x \/ In (fold_left Qmax l x) l) /\
    x <= fold_left Qmax l x /\
    (forall a, In a l -> a <= fold_left Qmax l x).
Proof.
  induction l as [|a l IH]; intros x; simpl.
  - split; [auto|]. split; [apply Qle_refl|]. intros a [].
  - destruct (IH (Qmax x a)) as (Hin & Hle & Hall).
    pose proof (Q.le_max_l x a). pose proof (Q.le_max_r x a).
    split; [|split].
    + destruct Hin as [->|Hin]; [|auto]. destruct (Qmax_cases x a) as [->| ->]; auto.
    + eapply Qle_trans; eassumption.
    + intros b [<-|Hb]; [eapply Qle_trans; eassumption|auto].
Qed.

(** The least and the greatest of at least two numbers. *)
Lemma min_max_args (x y : Q) (rest : list Q) :
  let lo := fold_left Qmin (y :: rest) x in
  let hi := fold_left Qmax (y :: rest) x in
  In lo (x :: y :: rest) /\ In hi (x :: y :: rest) /\
  forall a, In a (x :: y :: rest) -> lo <= a <= hi.
Proof.
  intros lo hi.
  destruct (fold_min_spec (y :: rest) x) as (Hin & Hle & Hall).
  destruct (fold_max_spec (y :: rest) x) as (Hin' & Hle' & Hall').
  fold lo in Hin, Hle, Hall. fold hi in Hin', Hle', Hall'.
  split; [destruct Hin as [->|Hin]; [left; reflexivity|right; exact Hin]|].
  split; [destruct Hin' as [->|Hin']; [left; reflexivity|right; exact Hin']|].
  intros a [<-|Ha]; split; auto.
Qed.

Lemma In_lookup (l : list Q) (x : Q) : In x l <-> exists k, l !! k = Some x.
Proof.
  rewrite <- list_elem_of_In. apply list_elem_of_lookup.
Qed.

(** The box that [min] and [max] make of the slices of a record of
    numbers. *)
Lemma box_of_numbers (qs : list Q) (x y : fval) (xs : list fval)
    (x' y' : fval) (ys : list fval) :
  slice2 (numbers qs) = x :: y :: xs ->
  slice2 (tail (numbers qs)) = x' :: y' :: ys ->
  exists b,
    mkgtbox (fold_left (fun cur v => if fval_ltb v cur then v else cur) (y :: xs) x)
            (fold_left (fun cur v => if fval_ltb v cur then v else cur) (y' :: ys) x')
            (fold_left (fun cur v => if fval_ltb cur v then v else cur) (y :: xs) x)
            (fold_left (fun cur v => if fval_ltb cur v then v else cur) (y' :: ys) x')
    = numbers_box b /\
    tight_box qs b.
Proof.
  unfold numbers. intros Hx Hy.
  replace (tail (Finite <$> qs)) with (Finite <$> tail qs) in Hy by (destruct qs; reflexivity).
  rewrite slice2_fmap in Hx, Hy.
  destruct (slice2 qs) as [|qx [|qy qxs]] eqn:Ex; try discriminate.
  destruct (slice2 (tail qs)) as [|qx' [|qy' qys]] eqn:Ey; try discriminate.
  cbn [fmap list_fmap] in Hx, Hy.
  injection Hx as <- <- <-. injection Hy as <- <- <-.
  change (Finite qy :: (Finite <$> qxs)) with (Finite <$> (qy :: qxs)).
  change (Finite qy' :: (Finite <$> qys)) with (Finite <$> (qy' :: qys)).
  rewrite !fold_min_numbers, !fold_max_numbers.
  exists (mkbbox (fold_left Qmin (qy :: qxs) qx) (fold_left Qmin (qy' :: qys) qx')
                 (fold_left Qmax (qy :: qxs) qx) (fold_left Qmax (qy' :: qys) qx')).
  split; [reflexivity|].
  destruct (min_max_args qx qy qxs) as (Hlo & Hhi & Hb).
  destruct (min_max_args qx' qy' qys) as (Hlo' & Hhi' & Hb').
  rewrite <- Ex in Hlo, Hhi, Hb. rewrite <- Ey in Hlo', Hhi', Hb'.
  unfold tight_box. cbn [min_x min_y max_x max_y].
  split; [|split; [|split; [|split; [|split]]]].
  - intros k v Hk. apply Hb. apply In_lookup. exists k.
    rewrite slice2_lookup. exact Hk.
  - intros k v Hk. apply Hb'. apply In_lookup. exists k.
    rewrite slice2_tail_lookup. exact Hk.
  - apply In_lookup in Hlo. destruct Hlo as [k Hk]. exists k.
    rewrite <- slice2_lookup. exact Hk.
  - apply In_lookup in Hhi. destruct Hhi as [k Hk]. exists k.
    rewrite <- slice2_lookup. exact Hk.
  - apply In_lookup in Hlo'. destruct Hlo' as [k Hk]. exists k.
    rewrite <- slice2_tail_lookup. exact Hk.
  - apply In_lookup in Hhi'. destruct Hhi' as [k Hk]. exists k.
    rewrite <- slice2_tail_lookup. exact Hk.
Qed.

Section EntriesSpec.

Context {S : Type}.
Variable folder : string.

Lemma entry_spec (fn : string) (gt : item) (s s' : S) (e : string * gtbox) :
  entry folder (fn, gt) s = (inr e, s') ->
  s' = s /\ e.1 = join folder fn /\ usable gt = true /\
  exists r, gt = Row r /\
    forall qs, r = numbers qs -> exists b, e.2 = numbers_box b /\ tight_box qs b.
Proof.
  destruct gt as [x|r]; [discriminate|].
  unfold entry, getslice, mbind, Py_bind, mret, Py_ret. simpl.
  destruct (slice2 r) as [|x [|y xs]] eqn:Hx; simpl; try discriminate.
  destruct (slice2 (tail r)) as [|x' [|y' ys]] eqn:Hy; simpl; try discriminate.
  intros [= <- <-]. split; [reflexivity|]. split; [reflexivity|]. split.
  - destruct r as [|a [|b [|c [|d r]]]]; simpl in *; try discriminate. reflexivity.
  - exists r. split; [reflexivity|]. intros qs ->.
    cbn [snd]. apply (box_of_numbers qs x y xs x' y' ys Hx Hy).
Qed.

Lemma entries_spec (pairs : list (string * item)) :
  forall (data out : list (string * gtbox)) (s s' : S),
    entries folder pairs data s = (inr out, s') ->
    s' = s /\
    exists out',
      out = data ++ out' /\
      Forall2 (fun p e =>
                 e.1 = join folder p.1 /\ usable p.2 = true /\
                 exists r, p.2 = Row r /\
                   forall qs, r = numbers qs ->
                              exists b, e.2 = numbers_box b /\ tight_box qs b)
              pairs out'.
Proof.
  induction pairs as [|[fn gt] rest IH]; intros data out s s' Hrun.
  - injection Hrun as <- <-. split; [reflexivity|].
    exists []. rewrite app_nil_r. split; [reflexivity|constructor].
  - rewrite entries_cons in Hrun.
    destruct (entry folder (fn, gt) s) as [[err|e] s1] eqn:He; [discriminate|].
    destruct (entry_spec fn gt s s1 e He) as (-> & Hfn & Hu & r & Hr & Ht).
    destruct (IH _ _ _ _ Hrun) as (-> & out' & -> & Hall).
    split; [reflexivity|]. exists (e :: out').
    split; [rewrite <- app_assoc; reflexivity|].
    constructor; [|exact Hall]. simpl. eauto.
Qed.

(** Usable records never make the loop body raise. *)
Lemma entries_usable (pairs : list (string * item)) :
  Forall (fun p => usable p.2 = true) pairs ->
  forall (data : list (string * gtbox)) (s : S),
    exists out, entries folder pairs data s = (inr out, s).
Proof.
  induction 1 as [|[fn gt] rest Hu _ IH]; intros data s.
  - exists data. reflexivity.
  - rewrite entries_cons. destruct gt as [x|r]; [discriminate|].
    cbn [usable snd] in Hu. apply Nat.leb_le in Hu.
    destruct (entry_row folder fn r s Hu) as (b & ->). apply IH.
Qed.

(** Rows never raise IndexError. *)
Lemma entries_rows_error (pairs : list (string * item)) :
  Forall (fun p => exists r, p.2 = Row r) pairs ->
  forall (data : list (string * gtbox)) (s : S),
    entries folder pairs data s <> (inl IndexError, s).
Proof.
  induction 1 as [|[fn gt] rest [r Hr] _ IH]; intros data s; [discriminate|].
  simpl in Hr. subst gt. rewrite entries_cons.
  destruct (entry_outcome folder (fn, Row r) s) as [[e ->]|[He | ->]].
  - apply IH.
  - exfalso. revert He.
    unfold entry, getslice, mbind, Py_bind, mret, Py_ret. simpl.
    destruct (slice2 r) as [|x [|y xs]]; simpl; try discriminate.
    destruct (slice2 (tail r)) as [|x' [|y' ys]]; simpl; discriminate.
  - discriminate.
Qed.

End EntriesSpec.

Lemma Forall_zip_take {A B} (P : B -> Prop) (l : list A) (k : list B) :
  Forall (fun p => P p.2) (zip l k) <-> Forall P (take (length l) k).
Proof.
  revert k. induction l as [|a l IH]; intros k.
  - simpl. split; constructor.
  - destruct k as [|b k]; simpl; [split; constructor|].
    rewrite !Forall_cons, IH. reflexivity.
Qed.

Lemma merge_sort_length (l : list string) :
  length (merge_sort String.le l) = length l.
Proof.
  apply Permutation_length, merge_sort_Permutation.
Qed.

Lemma fst_zip_take {A B} (l : list A) (k : list B) :
  (zip l k).*1 = take (length k) l.
Proof.
  revert k. induction l as [|a l IH]; intros k.
  - destruct k; reflexivity.
  - destruct k as [|b k]; simpl; [reflexivity|]. rewrite IH. reflexivity.
Qed.

Lemma lookup_zip_snd {A B} (l : list A) (k : list B) (i : nat) (q : A * B) :
  zip l k !! i = Some q -> k !! i = Some q.2 /\ l !! i = Some q.1.
Proof.
  revert k i. induction l as [|a l IH]; intros k i; [discriminate|].
  destruct k as [|b k]; [discriminate|].
  destruct i as [|i]; simpl.
  - intros [= <-]. auto.
  - apply IH.
Qed.

(** What a successful construction went through. *)
Lemma Folder_init_inv {image} (exts : list string)
    (abspath expanduser : string -> string) (folder : string)
    (loader : string -> image) (fs s : gmap string node) (self : Folder image) :
  let p := abspath (expanduser folder) in
  Folder_init exts abspath expanduser folder loader fs = (inr self, s) ->
  exists names lines table,
    fs !! p = Some (Dir names) /\
    fs !! join p "groundtruth.txt" = Some (File lines) /\
    parse_table lines = inr table /\
    (forall v, table <> Arr0 v) /\
    entries p (zip (merge_sort String.le (image_names exts names)) (items_of table)) [] fs
      = (inr (fdata self), s).
Proof.
  intros p Hrun.
  destruct (isdir p fs) eqn:Ed.
  2:{ rewrite (Folder_init_not_dir exts abspath expanduser folder loader fs Ed) in Hrun.
      discriminate. }
  destruct (isfile (join p "groundtruth.txt") fs) eqn:Ef.
  2:{ rewrite (Folder_init_no_file exts abspath expanduser folder loader fs Ed Ef) in Hrun.
      discriminate. }
  apply isdir_true in Ed. destruct Ed as [names Hp].
  apply isfile_true in Ef. destruct Ef as [lines Hgt].
  rewrite (Folder_init_checked exts abspath expanduser folder loader fs names lines Hp Hgt)
    in Hrun.
  exists names, lines.
  destruct (parse_table lines) as [e|table]; [discriminate|]. exists table.
  split; [exact Hp|]. split; [exact Hgt|]. split; [reflexivity|].
  destruct table as [v|values|rows]; [discriminate|..];
    (split; [discriminate|]);
    match type of Hrun with context [entries ?a ?b ?c ?d] =>
      destruct (entries a b c d) as [[e|d'] s'] eqn:E end;
    try discriminate; injection Hrun as <- <-; exact E.
Qed.

(** X11: a ground-truth file that is read as a one-dimensional array, such
    as a file of a single record, yields scalars; with at least one image
    file in the folder the loop body indexes a scalar and construction
    raises IndexError. *)
Theorem Folder_init_single_record {image} (exts : list string)
    (abspath expanduser : string -> string) (folder : string)
    (loader : string -> image) (fs : gmap string node)
    (names : list string) (lines : list (list fval)) (v : fval) (vs : list fval) :
  let p := abspath (expanduser folder) in
  fs !! p = Some (Dir names) ->
  fs !! join p "groundtruth.txt" = Some (File lines) ->
  parse_table lines = inr (Arr1 (v :: vs)) ->
  image_names exts names <> [] ->
  Folder_init exts abspath expanduser folder loader fs = (inl IndexError, fs).
Proof.
  intros p Hp Hgt Hparse Hnames.
  rewrite (Folder_init_checked exts abspath expanduser folder loader fs names lines Hp Hgt).
  rewrite Hparse.
  pose proof (merge_sort_length (image_names exts names)) as Hlen.
  destruct (merge_sort String.le (image_names exts names)) as [|fn fnames].
  - destruct (image_names exts names); [congruence|discriminate].
  - reflexivity.
Qed.

Lemma Folder_init_single_record_witness :
  Folder_init (image := unit) extensions id id "/seq" (fun _ => tt) fs_single
    = (inl IndexError, fs_single).
Proof.
  apply (Folder_init_single_record (image := unit) extensions id id "/seq" (fun _ => tt)
           fs_single ["a.jpg"; "b.jpg"; "groundtruth.txt"] [numbers [0; 0; 10; 10]]
           (Finite 0) (numbers [0; 10; 10]) eq_refl eq_refl eq_refl).
  discriminate.
Defined.

(** X12: when the file is read as a table of several records and one of
    those that get paired with an image file has fewer than four values,
    construction raises TypeError: no index is built from the records
    before it. *)
Theorem Folder_init_short_record {image} (exts : list string)
    (abspath expanduser : string -> string) (folder : string)
    (loader : string -> image) (fs : gmap string node)
    (names : list string) (lines rows : list (list fval)) (i : nat) (r : list fval) :
  let p := abspath (expanduser folder) in
  fs !! p = Some (Dir names) ->
  fs !! join p "groundtruth.txt" = Some (File lines) ->
  parse_table lines = inr (Arr2 rows) ->
  (i < length (image_names exts names))%nat ->
  rows !! i = Some r ->
  (length r < 4)%nat ->
  Folder_init exts abspath expanduser folder loader fs = (inl TypeError, fs).
Proof.
  intros p Hp Hgt Hparse Hi Hr Hshort.
  rewrite (Folder_init_checked exts abspath expanduser folder loader fs names lines Hp Hgt).
  rewrite Hparse. cbn [items_of]. fold p.
  set (fnames := merge_sort String.le (image_names exts names)).
  assert (Hlen : length fnames = length (image_names exts names))
    by apply merge_sort_length.
  destruct (entries_outcome p (zip fnames (Row <$> rows)) [] fs) as [[out E]|[E|E]];
    rewrite E.
  - exfalso. destruct (entries_spec p _ _ _ _ _ E) as (_ & out' & _ & Hall).
    assert (Hu : Forall (fun q => usable q.2 = true) (zip fnames (Row <$> rows))).
    { clear -Hall. induction Hall as [|q e qs es (_ & Hq & _) _ IH]; constructor; auto. }
    apply (Forall_zip_take (fun it => usable it = true)) in Hu.
    rewrite Forall_lookup in Hu.
    assert (Hrow : take (length fnames) (Row <$> rows) !! i = Some (Row r)).
    { rewrite lookup_take_lt by lia. rewrite list_lookup_fmap, Hr. reflexivity. }
    specialize (Hu i _ Hrow). cbn [usable] in Hu. apply Nat.leb_le in Hu. lia.
  - exfalso. revert E. apply entries_rows_error.
    apply (Forall_zip_take (fun it => exists r, it = Row r)).
    apply Forall_take, Forall_fmap, Forall_forall. intros r' _. exists r'. reflexivity.
  - reflexivity.
Qed.

Lemma Folder_init_short_record_witness :
  Folder_init (image := unit) extensions id id "/seq" (fun _ => tt) fs_short
    = (inl TypeError, fs_short).
Proof.
  apply (Folder_init_short_record (image := unit) extensions id id "/seq" (fun _ => tt)
           fs_short ["a.jpg"; "b.jpg"; "groundtruth.txt"]
           [numbers [0; 0; 10]; numbers [1; 2; 3]] [numbers [0; 0; 10]; numbers [1; 2; 3]]
           1 (numbers [1; 2; 3]) eq_refl eq_refl eq_refl).
  - simpl. lia.
  - reflexivity.
  - simpl. lia.
Defined.

(** X13: construction succeeds exactly when the path is a directory that
    holds a regular file groundtruth.txt, the lines of that file all have
    the same number of values and are not a single value, and every record
    that gets paired with an image file is a row of at least four values. *)
Theorem Folder_init_succeeds_iff {image} (exts : list string)
    (abspath expanduser : string -> string) (folder : string)
    (loader : string -> image) (fs : gmap string node) :
  let p := abspath (expanduser folder) in
  let gt := join p "groundtruth.txt" in
  (exists self, Folder_init exts abspath expanduser folder loader fs = (inr self, fs))
  <->
  exists names lines table,
    fs !! p = Some (Dir names) /\ fs !! gt = Some (File lines) /\
    parse_table lines = inr table /\ (forall v, table <> Arr0 v) /\
    Forall (fun it => usable it = true)
      (take (length (image_names exts names)) (items_of table)).
Proof.
  intros p gt. split.
  - intros [self Hrun].
    destruct (Folder_init_inv exts abspath expanduser folder loader fs fs self Hrun)
      as (names & lines & table & Hp & Hgt & Hparse & H0 & E).
    exists names, lines, table. repeat (split; [assumption|]).
    rewrite <- (merge_sort_length (image_names exts names)).
    destruct (entries_spec _ _ _ _ _ _ E) as (_ & out' & _ & Hall).
    apply (Forall_zip_take (fun it => usable it = true)).
    clear -Hall. induction Hall as [|q e qs es (_ & Hq & _) _ IH]; constructor; auto.
  - intros (names & lines & table & Hp & Hgt & Hparse & H0 & Hu).
    rewrite (Folder_init_checked exts abspath expanduser folder loader fs names lines Hp Hgt).
    rewrite Hparse.
    rewrite <- (merge_sort_length (image_names exts names)) in Hu.
    apply (Forall_zip_take (fun it => usable it = true)) in Hu.
    destruct (entries_usable p _ Hu [] fs) as [out Hout]. fold p.
    destruct table as [v|values|rows]; [exfalso; exact (H0 v eq_refl)|..];
      rewrite Hout; eexists; reflexivity.
Qed.

Lemma Folder_init_succeeds_iff_witness :
  exists self,
    Folder_init (image := unit) extensions id id "/seq" (fun _ => tt) fs_seq
      = (inr self, fs_seq).
Proof.
  apply (proj2 (Folder_init_succeeds_iff (image := unit) extensions id id "/seq"
                  (fun _ => tt) fs_seq)).
  eexists _, _, _. split; [reflexivity|]. split; [reflexivity|].
  split; [reflexivity|]. split; [discriminate|]. repeat constructor.
Defined.

(** X14: a constructed index pairs the image files in lexical order of
    their names with the records in file order.  Its paths are the folder
    joined with the first names of the sorted list of image names, one per
    entry, and it has as many entries as the shorter of the two
    sequences. *)
Theorem Folder_entries_in_name_order {image} (exts : list string)
    (abspath expanduser : string -> string) (folder : string)
    (loader : string -> image) (fs : gmap string node) (self : Folder image) :
  let p := abspath (expanduser folder) in
  let gt := join p "groundtruth.txt" in
  Folder_init exts abspath expanduser folder loader fs = (inr self, fs) ->
  exists fnames lines table,
    Sorted String.le fnames /\
    fnames ≡ₚ image_names exts (listdir p fs) /\
    fs !! gt = Some (File lines) /\ parse_table lines = inr table /\
    (fdata self).*1 = join p <$> take (Folder_len self) fnames /\
    Folder_len self = Nat.min (length fnames) (length (items_of table)).
Proof.
  intros p gt Hrun.
  destruct (Folder_init_inv exts abspath expanduser folder loader fs fs self Hrun)
    as (names & lines & table & Hp & Hgt & Hparse & H0 & E).
  fold p in Hp, E. fold p gt in Hgt.
  set (fnames := merge_sort String.le (image_names exts names)) in *.
  set (records := items_of table) in *.
  destruct (entries_spec p _ _ _ _ _ E) as (_ & out' & Hout & Hall).
  simpl in Hout. subst out'.
  exists fnames, lines, table. split; [apply Sorted_merge_sort; apply _|].
  split; [unfold listdir; rewrite Hp; apply merge_sort_Permutation|].
  split; [exact Hgt|]. split; [exact Hparse|].
  unfold Folder_len.
  assert (Hlen : length (fdata self) = Nat.min (length fnames) (length records)).
  { rewrite <- (Forall2_length _ _ _ Hall). apply length_zip_with. }
  assert (Hfst : (fdata self).*1 = join p <$> (zip fnames records).*1).
  { clear -Hall. induction Hall as [|q e qs es (Hq & _) _ IH]; [reflexivity|].
    rewrite !fmap_cons, IH, Hq. reflexivity. }
  split; [|exact Hlen].
  rewrite Hfst, fst_zip_take, Hlen. f_equal.
  destruct (Nat.min_spec (length fnames) (length records)) as [[Hlt ->]|[Hle ->]].
  - rewrite !take_ge by lia. reflexivity.
  - reflexivity.
Qed.

Lemma Folder_entries_in_name_order_witness :
  exists self,
    Folder_init (image := unit) extensions id id "/seq" (fun _ => tt) fs_seq
      = (inr self, fs_seq) /\
    (fdata self).*1 = ["/seq/a.jpg"; "/seq/b.jpg"].
Proof.
  eexists. split; [vm_compute; reflexivity|].
  destruct (Folder_entries_in_name_order (image := unit) extensions id id "/seq"
              (fun _ => tt) fs_seq _ eq_refl) as (fnames & _ & _ & _ & _).
  reflexivity.
Defined.

(** X15: in a constructed index, the box of an entry whose record holds
    numbers only (no nan and no infinity) is the tight axis-aligned box of
    the points of that record: it bounds every point, each of its
    coordinates is attained by a point, and so its minimum is not above its
    maximum on either axis. *)
Theorem Folder_boxes_tight {image} (exts : list string)
    (abspath expanduser : string -> string) (folder : string)
    (loader : string -> image) (fs : gmap string node) (self : Folder image)
    (i : nat) (e : string * gtbox) :
  let gt := join (abspath (expanduser folder)) "groundtruth.txt" in
  Folder_init exts abspath expanduser folder loader fs = (inr self, fs) ->
  fdata self !! i = Some e ->
  exists lines table r,
    fs !! gt = Some (File lines) /\ parse_table lines = inr table /\
    items_of table !! i = Some (Row r) /\
    forall qs, r = numbers qs ->
      exists b,
        e.2 = numbers_box b /\ tight_box qs b /\
        min_x b <= max_x b /\ min_y b <= max_y b.
Proof.
  intros gt Hrun He.
  destruct (Folder_init_inv exts abspath expanduser folder loader fs fs self Hrun)
    as (names & lines & table & Hp & Hgt & Hparse & H0 & E).
  destruct (entries_spec _ _ _ _ _ _ E) as (_ & out' & Hout & Hall).
  simpl in Hout. subst out'.
  destruct (Forall2_lookup_r _ _ _ _ _ Hall He) as (q & Hq & _ & _ & r & Hr & Ht).
  apply lookup_zip_snd in Hq. destruct Hq as [Hq _]. rewrite Hr in Hq.
  exists lines, table, r. split; [exact Hgt|]. split; [exact Hparse|].
  split; [exact Hq|]. intros qs Hqs.
  destruct (Ht qs Hqs) as (b & Hb & Htight).
  exists b. split; [exact Hb|]. split; [exact Htight|].
  destruct Htight as (Hx & Hy & [kx Hkx] & _ & [ky Hky] & _).
  split; [exact (Qle_trans _ _ _ (proj1 (Hx _ _ Hkx)) (proj2 (Hx _ _ Hkx)))
         |exact (Qle_trans _ _ _ (proj1 (Hy _ _ Hky)) (proj2 (Hy _ _ Hky)))].
Qed.

Lemma Folder_boxes_tight_witness :
  exists self e,
    Folder_init (image := unit) extensions id id "/seq" (fun _ => tt) fs_seq
      = (inr self, fs_seq) /\
    fdata self !! 0%nat = Some e /\
    exists lines table r,
      fs_seq !! join "/seq" "groundtruth.txt" = Some (File lines) /\
      parse_table lines = inr table /\
      items_of table !! 0%nat = Some (Row r) /\
      forall qs, r = numbers qs ->
        exists b,
          e.2 = numbers_box b /\ tight_box qs b /\
          min_x b <= max_x b /\ min_y b <= max_y b.
Proof.
  eexists _, _. split; [vm_compute; reflexivity|]. split; [reflexivity|].
  exact (Folder_boxes_tight (image := unit) extensions id id "/seq" (fun _ => tt)
           fs_seq _ 0 _ eq_refl eq_refl).
Defined.

(** X16: access to an index by a position in range, counted from the end
    when negative, returns the image that the loader makes of the path of
    that entry, with the box of that entry, and leaves the index
    unchanged. *)
Theorem index_access_in_range {image} (self : Folder image) (index : Z) :
  (- Z.of_nat (Folder_len self) <= index < Z.of_nat (Folder_len self))%Z ->
  exists fn b,
    nth_error (fdata self) (position (Folder_len self) index) = Some (fn, b) /\
    Folder_getitem index self = (inr (loader self fn, b), self).
Proof.
  intros Hi.
  destruct (list_getitem_position (fdata self) index self Hi) as ([fn b] & Hnth & Hget).
  exists fn, b. split; [exact Hnth|].
  unfold Folder_getitem, mbind, Py_bind, reads, mret, Py_ret.
  rewrite Hget. reflexivity.
Qed.

Lemma index_access_in_range_witness :
  Folder_getitem (-1) folder2 = (inr ("/seq/b.jpg", numbers_box box20), folder2).
Proof.
  destruct (index_access_in_range folder2 (-1)) as (fn & b & Hnth & Hget).
  - unfold Folder_len; simpl; lia.
  - injection Hnth as <- <-. exact Hget.
Defined.

(** X17: access to an index by a position outside [-len, len) raises
    IndexError before the loader is called, and leaves the index
    unchanged; an empty index has no position in range. *)
Theorem index_access_out_of_range {image} (self : Folder image) (index : Z) :
  (index < - Z.of_nat (Folder_len self) \/ Z.of_nat (Folder_len self) <= index)%Z ->
  Folder_getitem index self = (inl IndexError, self).
Proof.
  intros Hi.
  pose proof (list_getitem_out_of_range (fdata self) index self Hi) as Hget.
  unfold Folder_getitem, mbind, Py_bind, reads. rewrite Hget. reflexivity.
Qed.

Lemma index_access_out_of_range_witness :
  Folder_getitem (-3) folder2 = (inl IndexError, folder2).
Proof.
  apply (index_access_out_of_range folder2 (-3)).
  left. unfold Folder_len; simpl; lia.
Defined.

(** ** Leaving the loop *)

Section Leaving.

Context {image label : Type}.
Variable self : SimpleSampler image label.
Variables lt br : vec.
Variable area : Q.

Lemma loop_all_rejected (draws : list draw) :
  Forall (fun d => rejected self lt br d = true) draws ->
  forall st, sampling_loop self lt br area draws st = None.
Proof.
  induction 1 as [|d ds Hd _ IH]; intros st; [reflexivity|].
  rewrite (loop_rejected_cons self lt br area d ds st Hd), IH. reflexivity.
Qed.

Lemma loop_last_event (draws : list draw) :
  forall (st st' : loop_state) (evs : list event),
    sampling_loop self lt br area draws st = Some (st', evs) ->
    exists evs' d,
      In d draws /\ rejected self lt br d = false /\
      evs = evs' ++ [IoU (iou_of area lt br (candidate_of self d).1
                            (candidate_of self d).2 (nsize_2 self d))].
Proof.
  induction draws as [|d ds IH]; intros st st' evs Hrun; simpl in Hrun; [discriminate|].
  destruct (rejected self lt br d) eqn:Hd.
  - rewrite (iteration_rejected self lt br area d st Hd) in Hrun.
    destruct (sampling_loop self lt br area ds _) as [[st2 evs2]|] eqn:E; [|discriminate].
    injection Hrun as <- <-.
    destruct (IH _ _ _ E) as (evs' & d' & Hin & Hd' & ->).
    exists (Disjoint :: evs'), d'. split; [right; exact Hin|]. split; [exact Hd'|reflexivity].
  - destruct (iteration_scored self lt br area d st Hd) as (st1 & Hit & _).
    rewrite Hit in Hrun. destruct (all_zero (remain st1)).
    + injection Hrun as <- <-. exists [], d.
      split; [left; reflexivity|]. split; [exact Hd|reflexivity].
    + destruct (sampling_loop self lt br area ds st1) as [[st2 evs2]|] eqn:E; [|discriminate].
      injection Hrun as <- <-.
      destruct (IH _ _ _ E) as (evs' & d' & Hin & Hd' & ->).
      eexists (_ :: evs'), d'. split; [right; exact Hin|]. split; [exact Hd'|reflexivity].
Qed.

(** Boxes with [lt <= br] that pass the overlap test share the point
    [maximum lt nlt]. *)
Lemma passed_share_a_point (nlt nbr : vec) :
  well_formed lt br -> well_formed nlt nbr ->
  overlap_test lt br nlt nbr = false ->
  inside (maximum lt nlt) lt br /\ inside (maximum lt nlt) nlt nbr.
Proof.
  intros [Hx Hy] [Hnx Hny] Ht.
  apply overlap_test_passed in Ht. destruct Ht as (H1 & H2 & H3 & H4).
  unfold inside, maximum. simpl.
  pose proof (Q.le_max_l (vx lt) (vx nlt)). pose proof (Q.le_max_r (vx lt) (vx nlt)).
  pose proof (Q.le_max_l (vy lt) (vy nlt)). pose proof (Q.le_max_r (vy lt) (vy nlt)).
  assert (Qmax (vx lt) (vx nlt) <= vx br) by (apply Q.max_lub; assumption).
  assert (Qmax (vx lt) (vx nlt) <= vx nbr) by (apply Q.max_lub; assumption).
  assert (Qmax (vy lt) (vy nlt) <= vy br) by (apply Q.max_lub; assumption).
  assert (Qmax (vy lt) (vy nlt) <= vy nbr) by (apply Q.max_lub; assumption).
  tauto.
Qed.

End Leaving.

(** X18: a call returns only from an iteration whose candidate passed the
    overlap test.  Whatever the quotas, a call whose draws all give
    candidates disjoint from the reference box has not returned, and the
    last iteration of a call that returns evaluated the IoU of a candidate
    that is not disjoint. *)
Theorem returns_on_overlapping_draw {image label} (self : SimpleSampler image label)
    (im : image) (box : bbox) (draws : list draw) :
  let '(lt, br) := reshape22 box in
  (Forall (fun d => rejected self lt br d = true) draws ->
   call_trace self im box draws = None) /\
  (forall view evs,
     call_trace self im box draws = Some (view, evs) ->
     exists evs' d v,
       In d draws /\ rejected self lt br d = false /\ evs = evs' ++ [IoU v]).
Proof.
  destruct (reshape22 box) as [lt br] eqn:Hbox. split.
  - intros Hall. unfold call_trace. rewrite Hbox.
    rewrite (loop_all_rejected self lt br _ draws Hall). reflexivity.
  - intros view evs. unfold call_trace. rewrite Hbox.
    destruct (sampling_loop _ _ _ _ _ _) as [[st evs0]|] eqn:Hloop; [|discriminate].
    intros [= _ <-].
    destruct (loop_last_event self lt br _ draws _ _ _ Hloop) as (evs' & d & Hin & Hd & ->).
    eauto 7.
Qed.

Lemma returns_on_overlapping_draw_witness :
  call_trace (sampler10 (0, 2)%Z) tt box10 [draw_far; draw_far; draw_far] = None.
Proof.
  apply (proj1 (returns_on_overlapping_draw (sampler10 (0, 2)%Z) tt box10
                  [draw_far; draw_far; draw_far])).
  repeat constructor.
Defined.

(** X19: for a reference box with [lt <= br], a sampler built on a box of
    non-negative size and draws with non-negative scale factors, every
    candidate returned as a positive shares a point with the reference
    box. *)
Theorem positives_meet_reference {image label} (self : SimpleSampler image label)
    (im : image) (box : bbox) (draws : list draw)
    (view : RegionDataset image label) (b : bbox) :
  min_x box <= max_x box -> min_y box <= max_y box ->
  0 <= vx (isize self) -> 0 <= vy (isize self) ->
  Forall (fun d => 0 <= pow_draw d) draws ->
  SimpleSampler_call self im box draws = Some view ->
  In (true, b) (crops view) ->
  exists pt,
    (min_x box <= vx pt <= max_x box /\ min_y box <= vy pt <= max_y box) /\
    (min_x b <= vx pt <= max_x b /\ min_y b <= vy pt <= max_y b).
Proof.
  intros Hbx Hby Hix Hiy Hpow Hcall Hin.
  unfold SimpleSampler_call, call_trace in Hcall.
  cbv beta iota delta [reshape22] in Hcall.
  destruct (sampling_loop _ _ _ _ _ _) as [[st evs]|] eqn:Hloop; [|discriminate].
  injection Hcall as <-. simpl in Hin.
  destruct (sampling_loop_data self _ _ _ draws _ _ _ Hloop) as (l & Hl & Hsub & _).
  simpl in Hl. rewrite Hl in Hin. apply list_elem_of_In in Hin.
  apply (sublist_subseteq _ _ Hsub) in Hin.
  apply list_elem_of_omap in Hin. destruct Hin as (d & Hd & Hoff).
  assert (Hp : 0 <= pow_draw d).
  { rewrite Forall_forall in Hpow. apply Hpow. exact Hd. }
  destruct (candidate_well_formed self d Hix Hiy Hp) as (_ & _ & Hwf).
  unfold offered, earned in Hoff.
  destruct (candidate_of self d) as [nlt nbr]. simpl in *.
  destruct (overlap_test _ _ nlt nbr) eqn:Ht; [discriminate|].
  assert (Hb : b = concatenate nlt nbr).
  { destruct (fge _ _); [|destruct (flt _ _)]; cbn in Hoff; congruence. }
  subst b.
  destruct (passed_share_a_point (mkvec (min_x box) (min_y box))
              (mkvec (max_x box) (max_y box)) nlt nbr) as [H1 H2];
    [split; assumption|exact Hwf|exact Ht|].
  eexists. split; [exact H1|exact H2].
Qed.

Lemma positives_meet_reference_witness :
  exists view b pt,
    SimpleSampler_call (sampler10 (1, 1)%Z) tt box10 [draw_corner; draw_same] = Some view /\
    In (true, b) (crops view) /\
    (0 <= vx pt <= 10 /\ 0 <= vy pt <= 10) /\
    (min_x b <= vx pt <= max_x b /\ min_y b <= vy pt <= max_y b).
Proof.
  eexists _, _.
  assert (Hpow : Forall (fun d => 0 <= pow_draw d) [draw_corner; draw_same]).
  { repeat constructor; vm_compute; discriminate. }
  assert (H0 : 0 <= 10) by (vm_compute; discriminate).
  destruct (positives_meet_reference (sampler10 (1, 1)%Z) tt box10 [draw_corner; draw_same]
              _ _ H0 H0 H0 H0 Hpow eq_refl (or_intror (or_introl eq_refl)))
    as (pt & H1 & H2).
  exists pt. split; [reflexivity|]. split; [right; left; reflexivity|].
  split; [exact H1|exact H2].
Defined.
